(** * db_conn_ssl: connection descriptors for Db2 over SSL (src/app.py)

    A shallow embedding of [src/app.py] and of the parts of Python's
    [urllib.parse] and text codecs that it calls.

    - A Python [str] is a sequence of Unicode code points, a [bytes] object a
      sequence of octets; both are lists of [N].
    - A Python [int] is a [Z]; [str] renders it in decimal, with no bound on
      the number of digits (CPython's optional limit on that conversion is
      taken to be switched off). Where a statement depends on the limit, it
      is kept away by a hypothesis ([within_digit_limit]); [str] of a value
      that a query returned applies it.
    - A call that can raise returns an [outcome]: the value, or the exception.
    - [create_engine] of SQLAlchemy is opaque: the engine handle is
      represented by the arguments it was created with.
    - [test_connection] runs in a small state-and-exception monad over the
      text written to standard output and the number of connections checked
      out of the pool. [print] hands its texts to the stream one by one, and
      the stream may refuse one: what it refuses is part of the world. *)

From Stdlib Require Import NArith ZArith String Ascii Bool List Lia.
From Stdlib Require Import DecimalString DecimalZ DecimalPos.
Import ListNotations.

Local Open Scope N_scope.
Local Open Scope list_scope.

(** ** Python values: text, bytes, exceptions *)

Module Py.

(** A [str]: code points, each below 0x110000. *)
Definition str := list N.

(** A [bytes] object: octets, each below 256. *)
Definition bytes := list N.

(** A string literal of the source (ASCII only). *)
Definition lit (s : string) : str :=
  map N_of_ascii (list_ascii_of_string s).

(** A character literal of the source. *)
Definition chr (a : ascii) : N := N_of_ascii a.

(** Every element is a code point. *)
Definition is_str (s : str) : bool := forallb (fun c => c <? 0x110000) s.
Definition wf_str (s : str) : Prop := is_str s = true.

(** Every element is an octet. *)
Definition wf_bytes (b : bytes) : Prop := Forall (fun c => c < 256) b.

Fixpoint str_eqb (s t : str) : bool :=
  match s, t with
  | [], [] => true
  | c :: s', d :: t' => (c =? d) && str_eqb s' t'
  | _, _ => false
  end.

(** The exception classes the program can meet: Python's built-in ones and
    the hierarchy of [sqlalchemy.exc]. *)
Inductive exc_class : Type :=
  | BaseException
  | KeyboardInterrupt
  | Exception
  | RuntimeError
  | AttributeError
  | ValueError
  | UnicodeError
  | UnicodeEncodeError
  | SQLAlchemyError
  | ArgumentError
  | NoSuchModuleError
  | PoolTimeoutError
  | StatementError
  | DBAPIError
  | InterfaceError
  | DatabaseError
  | OperationalError
  | ProgrammingError.

(** The direct base class. *)
Definition base (c : exc_class) : option exc_class :=
  match c with
  | BaseException => None
  | KeyboardInterrupt => Some BaseException
  | Exception => Some BaseException
  | RuntimeError => Some Exception
  | AttributeError => Some Exception
  | ValueError => Some Exception
  | UnicodeError => Some ValueError
  | UnicodeEncodeError => Some UnicodeError
  | SQLAlchemyError => Some Exception
  | ArgumentError => Some SQLAlchemyError
  | NoSuchModuleError => Some ArgumentError
  | PoolTimeoutError => Some SQLAlchemyError
  | StatementError => Some SQLAlchemyError
  | DBAPIError => Some StatementError
  | InterfaceError => Some DBAPIError
  | DatabaseError => Some DBAPIError
  | OperationalError => Some DatabaseError
  | ProgrammingError => Some DatabaseError
  end.

Definition exc_class_eqb (a b : exc_class) : bool :=
  match a, b with
  | BaseException, BaseException | KeyboardInterrupt, KeyboardInterrupt
  | Exception, Exception | RuntimeError, RuntimeError
  | AttributeError, AttributeError | ValueError, ValueError
  | UnicodeError, UnicodeError | UnicodeEncodeError, UnicodeEncodeError
  | SQLAlchemyError, SQLAlchemyError | ArgumentError, ArgumentError
  | NoSuchModuleError, NoSuchModuleError
  | PoolTimeoutError, PoolTimeoutError | StatementError, StatementError
  | DBAPIError, DBAPIError | InterfaceError, InterfaceError
  | DatabaseError, DatabaseError | OperationalError, OperationalError
  | ProgrammingError, ProgrammingError => true
  | _, _ => false
  end.

(** [issubclass c d], walking up the chain of base classes; the hierarchy is
    six levels deep. *)
Fixpoint issubclass_fuel (fuel : nat) (c d : exc_class) : bool :=
  exc_class_eqb c d ||
  match fuel with
  | O => false
  | S fuel' =>
      match base c with
      | Some c' => issubclass_fuel fuel' c' d
      | None => false
      end
  end.

Definition issubclass : exc_class -> exc_class -> bool := issubclass_fuel 6.

(** An exception object: its class and what [str(e)] returns. *)
Record exn : Type := mk_exn { exn_class : exc_class; exn_str : str }.

Definition isinstance (e : exn) (c : exc_class) : bool :=
  issubclass (exn_class e) c.

(** The result of a call: a value, or a raised exception. *)
Inductive outcome (A : Type) : Type :=
  | Return (a : A)
  | Raise (e : exn).
Arguments Return {A} a.
Arguments Raise {A} e.

Definition bind {A B : Type} (m : outcome A) (k : A -> outcome B) : outcome B :=
  match m with
  | Return a => k a
  | Raise e => Raise e
  end.

(** [str(n)] of an [int]: decimal digits, [-] before a negative number. *)
Definition str_int (n : Z) : str :=
  lit (NilZero.string_of_int (Z.to_int n)).

(** CPython's default limit on the conversion between [int] and [str]: a
    number of more than 4300 digits is refused. *)
Definition within_digit_limit (n : Z) : bool :=
  (List.length (str_int (Z.abs n)) <=? 4300)%nat.

(** The [ValueError] of a conversion past the limit. *)
Definition digit_limit_exceeded : exn :=
  mk_exn ValueError
    (lit ("Exceeds the limit (4300 digits) for integer string conversion; "
          ++ "use sys.set_int_max_str_digits() to increase the limit")%string).

(** [sep.join(parts)] *)
Fixpoint join (sep : str) (parts : list str) : str :=
  match parts with
  | [] => []
  | [p] => p
  | p :: rest => p ++ sep ++ join sep rest
  end.

(** The line feed that ends a printed line. *)
Definition LF : N := 10.

(** [s.replace(old, new)] for one-character [old] and [new]. *)
Definition replace_char (old new : N) (s : str) : str :=
  map (fun c => if c =? old then new else c) s.

(** [c in s] *)
Definition contains (c : N) (s : list N) : bool := existsb (N.eqb c) s.

(** [s.split(sep)] for a one-character separator: always at least one
    piece. *)
Fixpoint split (sep : N) (s : list N) : list (list N) :=
  match s with
  | [] => [[]]
  | c :: s' =>
      if c =? sep then [] :: split sep s'
      else match split sep s' with
           | piece :: pieces => (c :: piece) :: pieces
           | [] => [[c]]
           end
  end.

(** The numbers below [n]: a property of octets is checked on all of
    them. *)
Definition below (n : nat) : list N := map N.of_nat (seq 0 n).

End Py.

Notation "x <- m ;; k" := (Py.bind m (fun x => k))
  (at level 61, m at next level, right associativity).

(** ** UTF-8, as CPython's codec implements it *)

Module Utf8.
Import Py.

Definition is_surrogate (c : N) : bool := (0xD800 <=? c) && (c <=? 0xDFFF).

(** The octets of one code point (the branches of CPython's
    [utf8_encoder]); a surrogate has none under the [strict] handler. *)
Definition encode_char (c : N) : option bytes :=
  if c <? 0x80 then Some [c]
  else if c <? 0x800 then
    Some [N.lor 0xC0 (N.shiftr c 6); N.lor 0x80 (N.land c 0x3F)]
  else if is_surrogate c then None
  else if c <? 0x10000 then
    Some [N.lor 0xE0 (N.shiftr c 12);
          N.lor 0x80 (N.land (N.shiftr c 6) 0x3F);
          N.lor 0x80 (N.land c 0x3F)]
  else
    Some [N.lor 0xF0 (N.shiftr c 18);
          N.lor 0x80 (N.land (N.shiftr c 12) 0x3F);
          N.lor 0x80 (N.land (N.shiftr c 6) 0x3F);
          N.lor 0x80 (N.land c 0x3F)].

(** The [UnicodeEncodeError] of the [strict] handler; its message leaves out
    the character and the position that CPython reports. *)
Definition surrogates_not_allowed : exn :=
  mk_exn UnicodeEncodeError
    (lit "'utf-8' codec can't encode character: surrogates not allowed").

(** [s.encode('utf-8', 'strict')] *)
Fixpoint encode (s : str) : outcome bytes :=
  match s with
  | [] => Return []
  | c :: s' =>
      match encode_char c with
      | None => Raise surrogates_not_allowed
      | Some bs => rest <- encode s' ;; Return (bs ++ rest)
      end
  end.

(** No code point of [s] is a surrogate: [s] can be encoded. *)
Definition encodable (s : str) : bool := forallb (fun c => negb (is_surrogate c)) s.

Definition is_continuation (b : N) : bool := (0x80 <=? b) && (b <? 0xC0).

Definition REPLACEMENT : N := 0xFFFD.

(** [b.decode('utf-8', 'replace')]: the decoding loop of CPython's
    [utf8_decode]. An ill-formed sequence gives one U+FFFD and decoding
    resumes after the octets the decoder rejected: one for a bad start octet,
    the octets read so far for a bad continuation, all that is left for a
    sequence cut short by the end of the input. *)
Fixpoint decode (bs : bytes) : str :=
  match bs with
  | [] => []
  | b1 :: r1 =>
    if b1 <? 0x80 then b1 :: decode r1
    else if b1 <? 0xC2 then REPLACEMENT :: decode r1
    else if b1 <? 0xE0 then
      match r1 with
      | [] => [REPLACEMENT]
      | b2 :: r2 =>
        if is_continuation b2
        then (N.shiftl b1 6 + b2 - (N.shiftl 0xC0 6 + 0x80)) :: decode r2
        else REPLACEMENT :: decode r1
      end
    else if b1 <? 0xF0 then
      match r1 with
      | [] => [REPLACEMENT]
      | b2 :: r2 =>
        if negb (is_continuation b2)
           || (if b2 <? 0xA0 then b1 =? 0xE0 else b1 =? 0xED)
        then REPLACEMENT :: decode r1
        else
          match r2 with
          | [] => [REPLACEMENT]
          | b3 :: r3 =>
            if is_continuation b3
            then (N.shiftl b1 12 + N.shiftl b2 6 + b3
                  - (N.shiftl 0xE0 12 + N.shiftl 0x80 6 + 0x80)) :: decode r3
            else REPLACEMENT :: decode r2
          end
      end
    else if b1 <? 0xF5 then
      match r1 with
      | [] => [REPLACEMENT]
      | b2 :: r2 =>
        if negb (is_continuation b2)
           || (if b2 <? 0x90 then b1 =? 0xF0 else b1 =? 0xF4)
        then REPLACEMENT :: decode r1
        else
          match r2 with
          | [] => [REPLACEMENT]
          | b3 :: r3 =>
            if negb (is_continuation b3) then REPLACEMENT :: decode r2
            else
              match r3 with
              | [] => [REPLACEMENT]
              | b4 :: r4 =>
                if is_continuation b4
                then (N.shiftl b1 18 + N.shiftl b2 12 + N.shiftl b3 6 + b4
                      - (N.shiftl 0xF0 18 + N.shiftl 0x80 12
                         + N.shiftl 0x80 6 + 0x80)) :: decode r4
                else REPLACEMENT :: decode r3
              end
          end
      end
    else REPLACEMENT :: decode r1
  end.

(** The octets of a code point, with the shifts and masks of
    [encode_char] written as quotients and remainders. *)
Definition octets (c : N) : bytes :=
  if c <? 0x80 then [c]
  else if c <? 0x800 then [0xC0 + c / 64; 0x80 + c mod 64]
  else if c <? 0x10000 then
    [0xE0 + c / 4096; 0x80 + (c / 64) mod 64; 0x80 + c mod 64]
  else
    [0xF0 + c / 262144; 0x80 + (c / 4096) mod 64;
     0x80 + (c / 64) mod 64; 0x80 + c mod 64].

End Utf8.

(** ** urllib.parse: quote_plus and unquote_plus *)

Module Urllib.
Import Py.

(** [_ALWAYS_SAFE]: the unreserved characters, never quoted. *)
Definition ALWAYS_SAFE : bytes :=
  lit "ABCDEFGHIJKLMNOPQRSTUVWXYZabcdefghijklmnopqrstuvwxyz0123456789_.-~".

Definition hex_upper (d : N) : N :=
  nth (N.to_nat d) (lit "0123456789ABCDEF") (chr "0").

(** ['%{:02X}'.format(b)] for an octet [b]. *)
Definition format_02X (b : N) : str :=
  [chr "%"; hex_upper (b / 16); hex_upper (b mod 16)].

(** [_Quoter.__missing__]: a safe octet stands for itself, any other becomes
    [%XX]. *)
Definition quoter (safe : bytes) (b : N) : str :=
  if contains b safe then [b] else format_02X b.

(** [quote_from_bytes(bs, safe)]: non-ASCII characters of [safe] are
    dropped, [_ALWAYS_SAFE] is added; a [bs] made of safe octets only is
    returned as it is. *)
Definition quote_from_bytes (bs : bytes) (safe : str) : str :=
  match bs with
  | [] => []
  | _ =>
      let safe' := ALWAYS_SAFE ++ filter (fun c => c <? 128) safe in
      if forallb (fun b => contains b safe') bs then bs
      else concat (map (quoter safe') bs)
  end.

(** [quote(string, safe)] with the default encoding [utf-8] and the default
    error handler [strict]. *)
Definition quote (string : str) (safe : str) : outcome str :=
  match string with
  | [] => Return []
  | _ => bs <- Utf8.encode string ;; Return (quote_from_bytes bs safe)
  end.

(** [quote_plus(string, safe)] *)
Definition quote_plus (string : str) (safe : str) : outcome str :=
  if negb (contains (chr " ") string) then quote string safe
  else
    quoted <- quote string (safe ++ [chr " "]) ;;
    Return (replace_char (chr " ") (chr "+") quoted).

(** The value of a hexadecimal digit, of either case ([_hexdig]). *)
Definition hexval (c : N) : option N :=
  if (chr "0" <=? c) && (c <=? chr "9") then Some (c - chr "0")
  else if (chr "A" <=? c) && (c <=? chr "F") then Some (c - chr "A" + 10)
  else if (chr "a" <=? c) && (c <=? chr "f") then Some (c - chr "a" + 10)
  else None.

(** [_hextobyte[item[:2]]]: [None] stands for the [KeyError]. *)
Definition hextobyte (item : bytes) : option N :=
  match item with
  | h1 :: h2 :: _ =>
      match hexval h1, hexval h2 with
      | Some a, Some b => Some (16 * a + b)
      | _, _ => None
      end
  | _ => None
  end.

(** One piece after a [%]: the octet of its two hexadecimal digits and the
    rest, or the piece unchanged behind its [%]. *)
Definition unquote_item (item : bytes) : bytes :=
  match hextobyte item with
  | Some b => b :: skipn 2 item
  | None => chr "%" :: item
  end.

(** [unquote_to_bytes(string)] on text that is already octets (the caller
    below passes ASCII only, which UTF-8 leaves as it is). *)
Definition unquote_to_bytes (string : bytes) : bytes :=
  match string with
  | [] => []
  | _ =>
      match split (chr "%") string with
      | [] | [_] => string
      | first :: rest => first ++ concat (map unquote_item rest)
      end
  end.

(** [_asciire.split(string)]: the maximal runs of ASCII and of non-ASCII
    characters, in order; [true] marks an ASCII run. *)
Fixpoint ascii_runs (s : str) : list (bool * str) :=
  match s with
  | [] => []
  | c :: s' =>
      let a := c <? 128 in
      match ascii_runs s' with
      | (a', run) :: runs =>
          if Bool.eqb a a' then (a, c :: run) :: runs
          else (a, [c]) :: (a', run) :: runs
      | [] => [(a, [c])]
      end
  end.

(** [unquote(string)] with the default encoding [utf-8] and the default
    error handler [replace]. *)
Definition unquote (string : str) : str :=
  if negb (contains (chr "%") string) then string
  else
    concat (map (fun r : bool * str =>
                   if fst r then Utf8.decode (unquote_to_bytes (snd r))
                   else snd r)
                (ascii_runs string)).

(** [unquote_plus(string)] *)
Definition unquote_plus (string : str) : str :=
  unquote (replace_char (chr "+") (chr " ") string).

(** [s.partition(sep)] for a one-character separator: the text before the
    first [sep] and, when there is one, the text after it. *)
Fixpoint partition (sep : N) (s : str) : str * option str :=
  match s with
  | [] => ([], None)
  | c :: s' =>
      if c =? sep then ([], Some s')
      else let (before, after) := partition sep s' in (c :: before, after)
  end.

(** The query parameters of a URL that has no fragment, cut out as
    [urlsplit] and [parse_qsl] do and not yet decoded: the text after the
    first [?], cut at each [&], each piece cut at its first [=]. *)
Definition query_params (url : str) : list (str * str) :=
  match snd (partition (chr "?") url) with
  | None => []
  | Some qs =>
      map (fun name_value =>
             let (name, value) := partition (chr "=") name_value in
             (name, match value with Some v => v | None => [] end))
          (split (chr "&") qs)
  end.

(** The set [_Quoter.safe] that [quote_from_bytes] works with. *)
Definition safe_set (safe : str) : bytes :=
  ALWAYS_SAFE ++ filter (fun c => c <? 128) safe.

(** What [quote_plus] with an empty [safe] does to one octet, whichever of
    its two branches runs. *)
Definition plus_quoter (b : N) : str :=
  if contains b ALWAYS_SAFE then [b]
  else if b =? chr " " then [chr "+"]
  else format_02X b.

(** The characters a [quote_plus] token is made of. *)
Definition TOKEN_CHARS : str := ALWAYS_SAFE ++ lit "%+".
Definition is_token_char (c : N) : bool := contains c TOKEN_CHARS.

(** An ASCII character other than [%] and [+]: what a safe set may hold for
    [unquote_plus] to undo the quoting. *)
Definition is_plain_ascii (c : N) : bool :=
  (c <? 128) && negb (c =? chr "%") && negb (c =? chr "+").

(** [unquote_to_bytes] without its shortcuts: the first piece, then each
    later piece through [unquote_item]. *)
Definition pieces (l : bytes) : bytes :=
  hd [] (split (chr "%") l) ++ concat (map unquote_item (tl (split (chr "%") l))).

End Urllib.

(** ** src/app.py *)

Module App.
Import Py.

(** *** The engine handle

    [sqlalchemy.create_engine] is outside the repository. The handle it
    returns stands for the arguments of the call. What SQLAlchemy does with
    the URL when it parses it is not modelled: a builder that returns a
    handle here has put its URL together and reached the call. *)
Record EngineHandle : Type := mk_engine {
  engine_url : str;
  engine_pool_size : Z;
  engine_max_overflow : Z;
  engine_future : bool
}.

Definition create_engine (url : str) (pool_size max_overflow : Z)
    (future : bool) : EngineHandle :=
  mk_engine url pool_size max_overflow future.

(** [if ca_cert_path:] for a value of type [str | None]. *)
Definition truthy (ca_cert_path : option str) : bool :=
  match ca_cert_path with
  | Some (_ :: _) => true
  | Some [] | None => false
  end.

(** The path behind a truthy [ca_cert_path]. *)
Definition path_of (ca_cert_path : option str) : str :=
  match ca_cert_path with
  | Some p => p
  | None => []
  end.

(** *** Method A: create_engine_with_dsn *)

(** Lines 50-63: the list [dsn_attrs] once the optional append is done. *)
Definition dsn_attrs (user password host : str) (port : Z) (database : str)
    (ca_cert_path : option str) (connect_timeout : Z) : list str :=
  let dsn_attrs :=
    [ lit "DATABASE=" ++ database;
      lit "HOSTNAME=" ++ host;
      lit "PORT=" ++ str_int port;
      lit "PROTOCOL=TCPIP";
      lit "UID=" ++ user;
      lit "PWD=" ++ password;
      lit "Security=SSL";
      lit "CONNECTTIMEOUT=" ++ str_int connect_timeout ] in
  if truthy ca_cert_path
  then dsn_attrs ++ [lit "SSLServerCertificate=" ++ path_of ca_cert_path]
  else dsn_attrs.

(** Line 65: [dsn = ";".join(dsn_attrs)]. *)
Definition dsn (user password host : str) (port : Z) (database : str)
    (ca_cert_path : option str) (connect_timeout : Z) : str :=
  join (lit ";")
       (dsn_attrs user password host port database ca_cert_path connect_timeout).

Definition create_engine_with_dsn (user password host : str) (port : Z)
    (database : str) (ca_cert_path : option str) (connect_timeout : Z)
    : outcome EngineHandle :=
  let dsn := dsn user password host port database ca_cert_path connect_timeout in
  encoded_dsn <- Urllib.quote_plus dsn [] ;;
  let url := lit "ibm_db_sa:///?dsn=" ++ encoded_dsn in
  Return (create_engine url 5 10 true).

(** *** Method B: create_engine_with_url_params *)

(** A [dict] with [str] keys: the items in insertion order. *)
Definition dict := list (str * str).

(** [d[k] = v]: the value of an existing key is replaced where it stands, a
    new key goes to the end. *)
Fixpoint dict_set (d : dict) (k v : str) : dict :=
  match d with
  | [] => [(k, v)]
  | (k', v') :: d' =>
      if str_eqb k' k then (k', v) :: d' else (k', v') :: dict_set d' k v
  end.

(** Lines 97-100: the dict [params] once the optional item is set. *)
Definition params (ca_cert_path : option str) (connect_timeout : Z) : dict :=
  let params := [ (lit "security", lit "SSL");
                  (lit "connecttimeout", str_int connect_timeout) ] in
  if truthy ca_cert_path
  then dict_set params (lit "SSLServerCertificate") (path_of ca_cert_path)
  else params.

(** The generator of line 102, run to its end: one [k=quote_plus(v)] for
    each item, the first exception stops it. *)
Fixpoint quote_items (items : dict) : outcome (list str) :=
  match items with
  | [] => Return []
  | (k, v) :: items' =>
      qv <- Urllib.quote_plus v [] ;;
      rest <- quote_items items' ;;
      Return ((k ++ lit "=" ++ qv) :: rest)
  end.

Definition create_engine_with_url_params (user password host : str) (port : Z)
    (database : str) (ca_cert_path : option str) (connect_timeout : Z)
    : outcome EngineHandle :=
  quser <- Urllib.quote_plus user [] ;;
  qpassword <- Urllib.quote_plus password [] ;;
  let base := lit "ibm_db_sa://" ++ quser ++ lit ":" ++ qpassword ++ lit "@"
              ++ host ++ lit ":" ++ str_int port ++ lit "/" ++ database in
  let params := params ca_cert_path connect_timeout in
  pairs <- quote_items params ;;
  let qs := join (lit "&") pairs in
  let url := base ++ (match qs with [] => [] | _ => lit "?" ++ qs end) in
  Return (create_engine url 5 10 true).

(** *** test_connection *)

(** What the program can observe of the world: the text written to standard
    output, the connections checked out of the engine's pool, and what the
    stream behind standard output does with a text it is asked to write:
    [None] when it takes it, otherwise the exception it raises (the
    [UnicodeEncodeError] of its encoder for a character it cannot encode). *)
Record World : Type := mk_world {
  stdout : str;
  checked_out : nat;
  stdout_refuses : str -> option exn
}.

(** A computation that reads and writes the world and may raise. *)
Definition io (A : Type) : Type := World -> outcome A * World.

Definition io_ret {A : Type} (a : A) : io A := fun w => (Return a, w).

Definition io_bind {A B : Type} (m : io A) (k : A -> io B) : io B :=
  fun w =>
    match m w with
    | (Return a, w') => k a w'
    | (Raise e, w') => (Raise e, w')
    end.

(** A call into the library: its outcome, the world untouched. *)
Definition call {A : Type} (r : outcome A) : io A := fun w => (r, w).

Declare Scope io_scope.
Delimit Scope io_scope with io.
Notation "x <- m ;; k" := (io_bind m (fun x => k))
  (at level 61, m at next level, right associativity) : io_scope.
Notation "m ;; k" := (io_bind m (fun _ => k))
  (at level 61, right associativity) : io_scope.

(** [try: body except cls as e: handler(e)] *)
Definition try_except {A : Type} (body : io A) (cls : exc_class)
    (handler : exn -> io A) : io A :=
  fun w =>
    match body w with
    | (Return a, w') => (Return a, w')
    | (Raise e, w') =>
        if isinstance e cls then handler e w' else (Raise e, w')
    end.

(** The values a scalar query can give back. *)
Inductive value : Type :=
  | VNone
  | VInt (n : Z)
  | VStr (s : str).

(** [str(v)]: an [int] of more than 4300 digits is refused. *)
Definition str_value (v : value) : outcome str :=
  match v with
  | VNone => Return (lit "None")
  | VInt n => if within_digit_limit n then Return (str_int n)
              else Raise digit_limit_exceeded
  | VStr s => Return s
  end.

(** The world once [text] is written to standard output. *)
Definition wrote (w : World) (text : str) : World :=
  mk_world (stdout w ++ text) (checked_out w) (stdout_refuses w).

(** [sys.stdout.write(text)]: the text is appended whole, or the stream
    raises and nothing of it is written. *)
Definition write (text : str) : io unit :=
  fun w =>
    match stdout_refuses w text with
    | None => (Return tt, wrote w text)
    | Some e => (Raise e, w)
    end.

(** The loop of [print]: before each argument but the first the separator,
    then [str] of the argument; each text goes to [write] on its own, so
    that what was written before a failure stays written. *)
Fixpoint write_args (first : bool) (args : list value) : io unit :=
  match args with
  | [] => io_ret tt
  | arg :: rest =>
      ((if first then io_ret tt else write (lit " ")) ;;
       text <- call (str_value arg) ;;
       write text ;;
       write_args false rest)%io
  end.

(** [print(a, b)]: the arguments separated by one space, then a newline. *)
Definition print (args : list value) : io unit :=
  (write_args true args ;; write [LF])%io.

(** How an engine answers: what [connect], [execute] and [scalar] return or
    raise is up to the driver and the server at the other end. *)
Record CursorResult : Type := { scalar : outcome value }.
Record Connection : Type := { execute : str -> outcome CursorResult }.
Record Engine : Type := { connect : outcome Connection }.

(** [text(sql)] wraps the statement; the wrapper carries nothing more. *)
Definition text (sql : str) : str := sql.

(** [with engine.connect() as conn: body]. A connection that was obtained is
    checked out of the pool. SQLAlchemy's [Connection.__enter__] returns the
    connection; [Connection.__exit__] calls [close()], which hands it back
    to the pool, and returns [None], so an exception of the body goes on. *)
Definition with_connect {A : Type} (engine : Engine)
    (body : Connection -> io A) : io A :=
  fun w =>
    match connect engine with
    | Raise e => (Raise e, w)
    | Return conn =>
        let (r, w') :=
          body conn (mk_world (stdout w) (S (checked_out w)) (stdout_refuses w)) in
        (r, mk_world (stdout w') (pred (checked_out w')) (stdout_refuses w'))
    end.

Definition test_connection (engine : Engine) : io bool :=
  try_except
    (with_connect engine (fun conn =>
       result <- call (execute conn (text (lit "SELECT 1 FROM SYSIBM.SYSDUMMY1"))) ;;
       val <- call (scalar result) ;;
       print [VStr (lit "Connection test returned:"); val]) ;;
     io_ret true)%io
    SQLAlchemyError
    (fun e =>
       print [VStr (lit "Connection test failed:"); VStr (exn_str e)] ;;
       io_ret false)%io.



(** *** Vocabulary of the specification *)

Definition SSLServerCertificate : str := lit "SSLServerCertificate".

(** The key of a [KEY=VALUE] attribute: the text before its first [=]. *)
Definition attr_key (attr : str) : str := fst (Urllib.partition (chr "=") attr).

(** The attribute list has an attribute with this key. *)
Definition has_attr (key : str) (attrs : list str) : bool :=
  existsb (fun attr => str_eqb (attr_key attr) key) attrs.

(** The dict has an item with this key. *)
Definition has_param (key : str) (d : dict) : bool :=
  existsb (fun item => str_eqb (fst item) key) d.

(** What the certificate adds to the joined attribute list. *)
Definition cert_suffix (ca_cert_path : option str) : str :=
  match ca_cert_path with
  | Some (c :: path) => lit ";SSLServerCertificate=" ++ c :: path
  | Some [] | None => []
  end.

(** The query string of method B, given the quoted certificate path. *)
Definition query_string (connect_timeout : Z) (qcert : option str) : str :=
  lit "security=SSL&connecttimeout=" ++ str_int connect_timeout
  ++ match qcert with
     | Some q => lit "&SSLServerCertificate=" ++ q
     | None => []
     end.

(** The quoted certificate path that goes into the query string. *)
Definition quoted_cert (ca_cert_path : option str) (qcert : option str) : Prop :=
  match ca_cert_path with
  | Some (c :: path) =>
      exists q, qcert = Some q /\ Urllib.quote_plus (c :: path) [] = Return q
  | Some [] | None => qcert = None
  end.

Definition wf_path (ca_cert_path : option str) : Prop :=
  wf_str (path_of ca_cert_path).

(** [s.startswith(prefix)] *)
Fixpoint starts_with (prefix s : str) : bool :=
  match prefix, s with
  | [], _ => true
  | p :: prefix', c :: s' => (p =? c) && starts_with prefix' s'
  | _ :: _, [] => false
  end.

(** [needle in hay] for two strings. *)
Fixpoint occurs (needle hay : str) : bool :=
  starts_with needle hay ||
  match hay with
  | [] => false
  | _ :: hay' => occurs needle hay'
  end.

(** The user and password fields of a URL: the text between [://] and the
    first [@], cut at its first [:]. *)
Definition credentials (url : str) : str * str :=
  match snd (Urllib.partition (chr ":") url) with
  | Some (_ :: _ :: rest) =>
      let (user, password) :=
        Urllib.partition (chr ":") (fst (Urllib.partition (chr "@") rest)) in
      (user, match password with Some p => p | None => [] end)
  | _ => ([], [])
  end.

(** *** Engines and inputs for the examples *)

(** A stub engine: [connect] and [execute] succeed, [scalar] answers as
    told. *)
Definition stub_result (answer : outcome value) : CursorResult :=
  {| scalar := answer |}.

Definition stub_connection (answer : outcome value) : Connection :=
  {| execute := fun _ => Return (stub_result answer) |}.

Definition stub_engine (answer : outcome value) : Engine :=
  {| connect := Return (stub_connection answer) |}.





(** A stream that encodes as UTF-8 with the error handler [strict], as
    standard output does in a UTF-8 locale: it refuses a text that holds a
    lone surrogate. *)
Definition utf8_strict (text : str) : option exn :=
  match Utf8.encode text with
  | Return _ => None
  | Raise e => Some e
  end.

(** Nothing printed yet, no connection checked out, standard output in
    UTF-8. *)
Definition fresh : World := mk_world [] 0 utf8_strict.







(** A user name with characters of two, three and four octets and a
    space. *)
Definition sample_user : str := [0xE9; 0x20AC; 0x1F600; 0x20; 0x62].

(** A password full of delimiters. *)
Definition sample_password : str := lit "p@ss;w=rd& +%41".

Definition sample_host : str := lit "db2-prod.example.com".
Definition sample_database : str := lit "MYDB".

(** A certificate path with a space in it. *)
Definition sample_cert : str := lit "/etc/ssl/my ca.pem".

(** The URLs the two methods give for the sample inputs, port 50000 and
    timeout 10, without a certificate path. *)
Definition sample_url_A : str :=
  lit ("ibm_db_sa:///?dsn=DATABASE%3DMYDB%3BHOSTNAME%3Ddb2-prod.example.com"
       ++ "%3BPORT%3D50000%3BPROTOCOL%3DTCPIP"
       ++ "%3BUID%3D%C3%A9%E2%82%AC%F0%9F%98%80+b"
       ++ "%3BPWD%3Dp%40ss%3Bw%3Drd%26+%2B%2541"
       ++ "%3BSecurity%3DSSL%3BCONNECTTIMEOUT%3D10")%string.

Definition sample_url_B : str :=
  lit ("ibm_db_sa://%C3%A9%E2%82%AC%F0%9F%98%80+b:p%40ss%3Bw%3Drd%26+%2B%2541"
       ++ "@db2-prod.example.com:50000/MYDB"
       ++ "?security=SSL&connecttimeout=10")%string.

(** The same with the sample certificate path. *)
Definition sample_url_A_cert : str :=
  sample_url_A ++ lit "%3BSSLServerCertificate%3D%2Fetc%2Fssl%2Fmy+ca.pem".

Definition sample_url_B_cert : str :=
  sample_url_B ++ lit "&SSLServerCertificate=%2Fetc%2Fssl%2Fmy+ca.pem".

(** The URL of the example of the specification. *)
Definition example_url : str :=
  lit ("ibm_db_sa://a+b:p%40ss%21@db.example.com:50000/MYDB"
       ++ "?security=SSL&connecttimeout=10")%string.

(** A well-formed text without [;]: as a value it stays inside its
    attribute. *)
Definition plain (s : str) : bool := is_str s && negb (contains (chr ";") s).

(** The texts of a call of method A are plain; a certificate path that is
    left out counts as the empty one. *)
Definition plain_args (user password host database : str)
    (ca_cert_path : option str) : bool :=
  plain user && plain password && plain host && plain database
  && plain (path_of ca_cert_path).

(** A password with delimiters but no [;], and the URL method A gives for it
    with the other sample inputs, without a certificate path. *)
Definition plain_password : str := lit "p@ss w=rd&+%41".

Definition plain_url_A : str :=
  lit ("ibm_db_sa:///?dsn=DATABASE%3DMYDB%3BHOSTNAME%3Ddb2-prod.example.com"
       ++ "%3BPORT%3D50000%3BPROTOCOL%3DTCPIP"
       ++ "%3BUID%3D%C3%A9%E2%82%AC%F0%9F%98%80+b"
       ++ "%3BPWD%3Dp%40ss+w%3Drd%26%2B%2541"
       ++ "%3BSecurity%3DSSL%3BCONNECTTIMEOUT%3D10")%string.

(** The query parameters of a URL with their values decoded, as [parse_qsl]
    returns them. *)
Definition decoded_params (url : str) : dict :=
  map (fun item => (fst item, Urllib.unquote_plus (snd item)))
      (Urllib.query_params url).

(** The text holds neither [?] nor [#]: in the URL of method B it stays in
    front of the query. *)
Definition no_query_mark (s : str) : bool :=
  negb (contains (chr "?") s) && negb (contains (chr "#") s).

End App.

(** ** int() of a string, as CPython parses it

    Lines 29 and 32 pass the text of an environment variable to [int]. As
    for [str] of an [int], CPython's optional limit on the number of digits
    is taken to be switched off. *)

Module Int.
Import Py.

(** [Py_ISSPACE]: the six ASCII white-space characters. *)
Definition is_space (c : N) : bool := ((9 <=? c) && (c <=? 13)) || (c =? 32).

(** [Py_UNICODE_ISSPACE] past ASCII (Unicode 14.0, as in CPython 3.11). *)
Definition unicode_space (c : N) : bool :=
  contains c [0x85; 0xA0; 0x1680; 0x2028; 0x2029; 0x202F; 0x205F; 0x3000]
  || ((0x2000 <=? c) && (c <=? 0x200A)).

(** The digit zero of each script with decimal digits (Unicode 14.0); the
    digits of a script are the ten code points from its zero on. *)
Definition DECIMAL_ZEROS : list N :=
  [ 0x30; 0x660; 0x6F0; 0x7C0; 0x966; 0x9E6; 0xA66; 0xAE6; 0xB66; 0xBE6; 0xC66;
    0xCE6; 0xD66; 0xDE6; 0xE50; 0xED0; 0xF20; 0x1040; 0x1090; 0x17E0; 0x1810;
    0x1946; 0x19D0; 0x1A80; 0x1A90; 0x1B50; 0x1BB0; 0x1C40; 0x1C50; 0xA620;
    0xA8D0; 0xA900; 0xA9D0; 0xA9F0; 0xAA50; 0xABF0; 0xFF10; 0x104A0; 0x10D30;
    0x11066; 0x110F0; 0x11136; 0x111D0; 0x112F0; 0x11450; 0x114D0; 0x11650;
    0x116C0; 0x11730; 0x118E0; 0x11950; 0x11C50; 0x11D50; 0x11DA0; 0x16A60;
    0x16AC0; 0x16B50; 0x1D7CE; 0x1D7D8; 0x1D7E2; 0x1D7EC; 0x1D7F6; 0x1E140;
    0x1E2F0; 0x1E950; 0x1FBF0 ].

(** [Py_UNICODE_TODECIMAL]: the value of a decimal digit of any script. *)
Definition unicode_decimal (c : N) : option N :=
  match find (fun zero => (zero <=? c) && (c <=? zero + 9)) DECIMAL_ZEROS with
  | Some zero => Some (c - zero)
  | None => None
  end.

(** The loop of [_PyUnicode_TransformDecimalAndSpaceToASCII]: white space
    becomes a space, a digit its ASCII digit; at anything else the text is
    cut short behind a [?]. *)
Fixpoint transform_chars (s : str) : str :=
  match s with
  | [] => []
  | ch :: s' =>
      if ch <? 127 then ch :: transform_chars s'
      else if unicode_space ch then chr " " :: transform_chars s'
      else match unicode_decimal ch with
           | Some decimal => (chr "0" + decimal) :: transform_chars s'
           | None => [chr "?"]
           end
  end.

(** [_PyUnicode_TransformDecimalAndSpaceToASCII]: text that is ASCII already
    is returned as it is. *)
Definition transform (s : str) : str :=
  if forallb (fun ch => ch <? 128) s then s else transform_chars s.

Fixpoint skip_spaces (s : str) : str :=
  match s with
  | c :: s' => if is_space c then skip_spaces s' else s
  | [] => []
  end.

(** [_PyLong_DigitValue[c] < 10] *)
Definition digit_value (c : N) : option N :=
  if (chr "0" <=? c) && (c <=? chr "9") then Some (c - chr "0") else None.

(** The scan over digits and underscores of [PyLong_FromString] in base 10:
    the value read so far and what is left, or [None] for two underscores in
    a row or an underscore at the end. [prev] is the character before. *)
Fixpoint scan_digits (prev : N) (acc : N) (s : str) : option (N * str) :=
  match s with
  | c :: s' =>
      if c =? chr "_" then
        if prev =? chr "_" then None else scan_digits c acc s'
      else
        match digit_value c with
        | Some d => scan_digits c (10 * acc + d) s'
        | None => if prev =? chr "_" then None else Some (acc, s)
        end
  | [] => if prev =? chr "_" then None else Some (acc, [])
  end.

(** The [ValueError] of [int]; its message leaves out the text that was
    refused. *)
Definition invalid_literal : exn :=
  mk_exn ValueError (lit "invalid literal for int() with base 10").

(** [PyLong_FromString(s, base=10)] and the check of its caller that all the
    text was read: white space, a sign, digits with single underscores
    between them, white space. *)
Definition long_from_string (s : str) : outcome Z :=
  let s1 := skip_spaces s in
  let (negative, s2) :=
    match s1 with
    | c :: s' => if c =? chr "+" then (false, s')
                 else if c =? chr "-" then (true, s')
                 else (false, s1)
    | [] => (false, s1)
    end in
  match s2 with
  | c :: _ => if c =? chr "_" then Raise invalid_literal else
      match scan_digits 0 0 s2 with
      | None => Raise invalid_literal
      | Some (value, rest) =>
          if (List.length rest =? List.length s2)%nat then Raise invalid_literal
          else
            match skip_spaces rest with
            | [] => Return (if negative then (- Z.of_N value)%Z else Z.of_N value)
            | _ :: _ => Raise invalid_literal
            end
      end
  | [] => Raise invalid_literal
  end.

(** [int(s)] for a [str]. *)
Definition int_str (s : str) : outcome Z := long_from_string (transform s).

(** The number a digit sequence stands for, read from the left as the scan
    does: [acc] is the value of the digits read before. *)
Fixpoint uint_value (d : Decimal.uint) (acc : N) : N :=
  match d with
  | Decimal.Nil => acc
  | Decimal.D0 l => uint_value l (10 * acc)
  | Decimal.D1 l => uint_value l (10 * acc + 1)
  | Decimal.D2 l => uint_value l (10 * acc + 2)
  | Decimal.D3 l => uint_value l (10 * acc + 3)
  | Decimal.D4 l => uint_value l (10 * acc + 4)
  | Decimal.D5 l => uint_value l (10 * acc + 5)
  | Decimal.D6 l => uint_value l (10 * acc + 6)
  | Decimal.D7 l => uint_value l (10 * acc + 7)
  | Decimal.D8 l => uint_value l (10 * acc + 8)
  | Decimal.D9 l => uint_value l (10 * acc + 9)
  end.

(** Text at which the scan stops: the end, or a character that is neither a
    digit nor an underscore. *)
Definition stops (tail : str) : bool :=
  match tail with
  | [] => true
  | c :: _ => negb (c =? chr "_")
              && match digit_value c with Some _ => false | None => true end
  end.

(** A character that [int] takes for a decimal digit, of any script. *)
Definition is_decimal (c : N) : bool :=
  match unicode_decimal c with Some _ => true | None => false end.

End Int.

(** ** src/app.py: configuration and the main block *)

Module Main.
Import Py App.

(** [os.environ.get(key)]: the value of the first item with that key. *)
Fixpoint environ_get (environ : dict) (key : str) : option str :=
  match environ with
  | [] => None
  | (k, v) :: environ' => if str_eqb k key then Some v else environ_get environ' key
  end.

(** [os.environ.get(key, default)] with a [str] default. *)
Definition getenv (environ : dict) (key default : str) : str :=
  match environ_get environ key with
  | Some v => v
  | None => default
  end.

(** [int(os.environ.get(key, default))] with an [int] default, which [int]
    returns as it is. *)
Definition getenv_int (environ : dict) (key : str) (default : Z) : outcome Z :=
  match environ_get environ key with
  | Some v => Int.int_str v
  | None => Return default
  end.

(** Lines 26-32: the module constants. *)
Record Config : Type := mk_config {
  DB2_USER : str;
  DB2_PASSWORD : str;
  DB2_HOST : str;
  DB2_PORT : Z;
  DB2_DATABASE : str;
  DB2_CA_CERT : str;
  DB2_CONNECT_TIMEOUT : Z
}.

(** What lines 26-32 do when the module is loaded, in their order: the two
    calls of [int] are the ones that can raise. *)
Definition load_config (environ : dict) : outcome Config :=
  let user := getenv environ (lit "DB2_USER") (lit "db2user") in
  let password := getenv environ (lit "DB2_PASSWORD") (lit "db2pwd") in
  let host := getenv environ (lit "DB2_HOST") (lit "db2-prod.example.com") in
  port <- getenv_int environ (lit "DB2_PORT") 50000 ;;
  let database := getenv environ (lit "DB2_DATABASE") (lit "MYDB") in
  let ca_cert := getenv environ (lit "DB2_CA_CERT") (lit "/path/to/ca_certificate.pem") in
  connect_timeout <- getenv_int environ (lit "DB2_CONNECT_TIMEOUT") 10 ;;
  Return (mk_config user password host port database ca_cert connect_timeout).

(** The configuration of an environment that sets none of the variables. *)
Definition default_config : Config :=
  mk_config (lit "db2user") (lit "db2pwd") (lit "db2-prod.example.com") 50000
            (lit "MYDB") (lit "/path/to/ca_certificate.pem") 10.

(** The seven variables the program reads. *)
Definition VARIABLES : list str :=
  [ lit "DB2_USER"; lit "DB2_PASSWORD"; lit "DB2_HOST"; lit "DB2_PORT";
    lit "DB2_DATABASE"; lit "DB2_CA_CERT"; lit "DB2_CONNECT_TIMEOUT" ].

(** Lines 137-153, the block under [if __name__ == "__main__":]. What an
    engine handle does when it is used is up to SQLAlchemy, the driver and
    the server: [driver] stands for them. *)
Definition main (driver : EngineHandle -> Engine) (cfg : Config) : io unit :=
  (engine <- call (create_engine_with_dsn (DB2_USER cfg) (DB2_PASSWORD cfg)
                     (DB2_HOST cfg) (DB2_PORT cfg) (DB2_DATABASE cfg)
                     (Some (DB2_CA_CERT cfg)) (DB2_CONNECT_TIMEOUT cfg)) ;;
   ok <- test_connection (driver engine) ;;
   if ok then print [VStr (lit "Connected OK to DB2 over SSL.")]
   else print [VStr (lit "Failed to connect to DB2. See error output above.")])%io.

(** Running the file: the module is loaded, then the main block runs. *)
Definition run (driver : EngineHandle -> Engine) (environ : dict) : io unit :=
  (cfg <- call (load_config environ) ;; main driver cfg)%io.

(** The attribute list and the engine handle of a configuration. *)
Definition config_attrs (cfg : Config) : list str :=
  dsn_attrs (DB2_USER cfg) (DB2_PASSWORD cfg) (DB2_HOST cfg) (DB2_PORT cfg)
    (DB2_DATABASE cfg) (Some (DB2_CA_CERT cfg)) (DB2_CONNECT_TIMEOUT cfg).

Definition config_engine (cfg : Config) : outcome EngineHandle :=
  create_engine_with_dsn (DB2_USER cfg) (DB2_PASSWORD cfg) (DB2_HOST cfg)
    (DB2_PORT cfg) (DB2_DATABASE cfg) (Some (DB2_CA_CERT cfg))
    (DB2_CONNECT_TIMEOUT cfg).

(** No string of the configuration holds a surrogate. *)
Definition config_encodable (cfg : Config) : bool :=
  Utf8.encodable (DB2_USER cfg) && Utf8.encodable (DB2_PASSWORD cfg)
  && Utf8.encodable (DB2_HOST cfg) && Utf8.encodable (DB2_DATABASE cfg)
  && Utf8.encodable (DB2_CA_CERT cfg).



(** Engines for the examples: whatever the handle, the same stub. *)
Definition healthy_driver (h : EngineHandle) : Engine :=
  stub_engine (Return (VInt 1)).


(** An environment for the examples: the port with white space around it,
    an empty certificate path, the other variables unset or as the samples
    of above. *)
Definition sample_environ : dict :=
  [ (lit "DB2_USER", sample_user);
    (lit "DB2_PASSWORD", sample_password);
    (lit "DB2_PORT", lit " " ++ str_int 50001 ++ [LF]);
    (lit "DB2_CA_CERT", []) ].

(** The configuration it gives. *)
Definition sample_config : Config :=
  mk_config sample_user sample_password (lit "db2-prod.example.com") 50001
            (lit "MYDB") [] 10.

(** An environment whose timeout is set, but blank. *)
Definition blank_timeout_environ : dict :=
  [ (lit "DB2_CONNECT_TIMEOUT", lit " ") ].

(** A configuration whose password holds a lone surrogate. *)
Definition surrogate_config : Config :=
  mk_config (lit "db2user") [0xDC80] (lit "db2-prod.example.com") 50000
            (lit "MYDB") (lit "/path/to/ca_certificate.pem") 10.

(** The two variables that [int] reads. *)
Definition NUMBERS : list str := [ lit "DB2_PORT"; lit "DB2_CONNECT_TIMEOUT" ].

End Main.

(** * Facts about the embedding *)

(** Quotients and remainders by the powers of two of UTF-8 are linear
    arithmetic once their defining equations are in the context. *)
Ltac Zify.zify_post_hook ::= Z.to_euclidean_division_equations.

(** Settle the comparisons of the goal that arithmetic decides. *)
Ltac decide_tests :=
  repeat match goal with
  | |- context [ ?a <? ?b ] =>
      (replace (a <? b) with true by (symmetry; apply N.ltb_lt; lia))
      || (replace (a <? b) with false by (symmetry; apply N.ltb_ge; lia))
  | |- context [ ?a <=? ?b ] =>
      (replace (a <=? b) with true by (symmetry; apply N.leb_le; lia))
      || (replace (a <=? b) with false by (symmetry; apply N.leb_gt; lia))
  | |- context [ ?a =? ?b ] =>
      (replace (a =? b) with true by (symmetry; apply N.eqb_eq; lia))
      || (replace (a =? b) with false by (symmetry; apply N.eqb_neq; lia))
  end.

(** ** Text and lists *)

Module PyFacts.
Import Py.

Lemma Some_inj {A : Type} (a b : A) : Some a = Some b -> a = b.
Proof. congruence. Qed.

Lemma Return_inj {A : Type} (a b : A) : Return a = Return b -> a = b.
Proof. congruence. Qed.

(** A check on every number below [n] holds for each of them. *)
Lemma forallb_below (P : N -> bool) (n : nat) :
  forallb P (below n) = true -> forall x, x < N.of_nat n -> P x = true.
Proof.
  intros H x Hx. rewrite forallb_forall in H. apply H.
  unfold below. apply in_map_iff. exists (N.to_nat x). split.
  - apply N2Nat.id.
  - apply in_seq. lia.
Qed.

Lemma Forall_forallb (P : N -> bool) l :
  forallb P l = true -> Forall (fun c => P c = true) l.
Proof. intros H. apply Forall_forall. now apply forallb_forall. Qed.

(** *** contains *)

Lemma contains_In c l : contains c l = true <-> In c l.
Proof.
  unfold contains. rewrite existsb_exists. split.
  - intros [x [Hx E]]. apply N.eqb_eq in E. now subst.
  - intros H. exists c. split; [exact H | apply N.eqb_refl].
Qed.

Lemma contains_app c l1 l2 :
  contains c (l1 ++ l2) = contains c l1 || contains c l2.
Proof. unfold contains. apply existsb_app. Qed.

Lemma contains_false_cons c d l :
  contains c (d :: l) = false <-> c <> d /\ contains c l = false.
Proof.
  unfold contains. cbn [existsb]. rewrite orb_false_iff, N.eqb_neq. tauto.
Qed.

Lemma Forall_contains_false c l :
  Forall (fun x => x <> c) l -> contains c l = false.
Proof.
  induction 1 as [|x l Hx _ IH]; [reflexivity|].
  apply contains_false_cons. split; [congruence | exact IH].
Qed.

(** *** split *)

Lemma split_nonempty sep l : split sep l <> [].
Proof.
  destruct l as [|c l]; cbn [split]; [discriminate|].
  destruct (c =? sep); [discriminate|]. destruct (split sep l); discriminate.
Qed.

Lemma split_cons_other sep c l :
  c <> sep ->
  split sep (c :: l) = (c :: hd [] (split sep l)) :: tl (split sep l).
Proof.
  intros Hc. cbn [split]. apply N.eqb_neq in Hc. rewrite Hc.
  destruct (split sep l) eqn:E; [now apply split_nonempty in E | reflexivity].
Qed.

Lemma split_cons_sep sep l : split sep (sep :: l) = [] :: split sep l.
Proof. cbn [split]. now rewrite N.eqb_refl. Qed.

(** Text without the separator is one piece. *)
Lemma split_no_sep sep l : contains sep l = false -> split sep l = [l].
Proof.
  induction l as [|c l IH]; [reflexivity|].
  intros H. apply contains_false_cons in H as [Hc Hl].
  rewrite split_cons_other by congruence. now rewrite IH.
Qed.

(** One piece is the whole text. *)
Lemma split_single sep l x : split sep l = [x] -> x = l.
Proof.
  revert x. induction l as [|c l IH]; intros x; cbn [split].
  - now intros [= <-].
  - destruct (c =? sep).
    + intros [= _ E]. now apply split_nonempty in E.
    + destruct (split sep l) as [|p ps] eqn:E;
        [now intros [= <-]; apply split_nonempty in E|].
      intros [= <- ->]. f_equal. now apply IH.
Qed.

(** Cutting at a separator and joining with it gives the text back. *)
Lemma join_split sep l : join [sep] (split sep l) = l.
Proof.
  induction l as [|c l IH]; [reflexivity|]. cbn [split].
  destruct (N.eqb_spec c sep) as [->|Hc].
  - destruct (split sep l) as [|p ps] eqn:E; [now apply split_nonempty in E|].
    cbn [join app] in *. now rewrite IH.
  - destruct (split sep l) as [|p ps] eqn:E; [now apply split_nonempty in E|].
    destruct ps as [|p' ps]; cbn [join app] in *; now rewrite <- IH.
Qed.

(** *** replace *)

Lemma replace_char_absent old new s :
  contains old s = false -> replace_char old new s = s.
Proof.
  induction s as [|c s IH]; [reflexivity|].
  intros H. apply contains_false_cons in H as [Hc Hs].
  cbn [replace_char map]. fold (replace_char old new s). rewrite IH by exact Hs.
  assert ((c =? old) = false) as -> by (apply N.eqb_neq; congruence). reflexivity.
Qed.

(** Replacing back undoes a replacement by a character that was absent. *)
Lemma replace_char_inverse old new s :
  contains new s = false ->
  replace_char new old (replace_char old new s) = s.
Proof.
  induction s as [|c s IH]; [reflexivity|].
  intros H. apply contains_false_cons in H as [Hc Hs].
  cbn [replace_char map]. fold (replace_char old new s).
  fold (replace_char new old (replace_char old new s)). rewrite IH by exact Hs.
  destruct (N.eqb_spec c old) as [->|Hco].
  - now rewrite N.eqb_refl.
  - assert ((c =? new) = false) as -> by (apply N.eqb_neq; congruence). reflexivity.
Qed.

Lemma replace_char_concat old new (l : list str) :
  replace_char old new (concat l) = concat (map (replace_char old new) l).
Proof. unfold replace_char. apply concat_map. Qed.

(** *** Literals and numerals *)

Lemma wf_str_Forall s : wf_str s <-> Forall (fun c => c < 0x110000) s.
Proof.
  unfold wf_str, is_str. rewrite forallb_forall, Forall_forall.
  split; intros H c Hc; apply N.ltb_lt; now apply H.
Qed.

Lemma wf_str_app s t : wf_str (s ++ t) <-> wf_str s /\ wf_str t.
Proof. unfold wf_str, is_str. rewrite forallb_app. apply andb_true_iff. Qed.

Lemma lit_wf s : wf_str (lit s).
Proof.
  apply wf_str_Forall. unfold lit. apply Forall_map. apply Forall_forall.
  intros a _. pose proof (N_ascii_bounded a). lia.
Qed.

Lemma lit_inj s t : lit s = lit t -> s = t.
Proof.
  unfold lit. intros H.
  rewrite <- (string_of_list_ascii_of_string s), <- (string_of_list_ascii_of_string t).
  f_equal. revert H. generalize (list_ascii_of_string s) (list_ascii_of_string t).
  induction l as [|a l IH]; intros [|b l']; cbn [map]; try discriminate; [reflexivity|].
  intros [= Hab Hl]. f_equal; [|now apply IH].
  rewrite <- (ascii_N_embedding a), <- (ascii_N_embedding b). now rewrite Hab.
Qed.

Lemma str_int_wf n : wf_str (str_int n).
Proof. apply lit_wf. Qed.

(** [str] of an [int] loses nothing: different numbers give different
    text. *)
Lemma str_int_inj n m : str_int n = str_int m -> n = m.
Proof.
  unfold str_int. intros H. apply lit_inj in H. apply to_int_inj.
  assert (forall z, NilZero.int_of_string (NilZero.string_of_int (Z.to_int z))
                    = Some (Z.to_int z)) as Hisi.
  { intros z. apply NilZero.isi; destruct z; cbn [Z.to_int]; try discriminate;
      intros [= E]; now apply Unsigned.to_uint_nonnil in E. }
  pose proof (Hisi n) as Hn. rewrite H, Hisi in Hn. now injection Hn.
Qed.

End PyFacts.

(** ** UTF-8: decoding undoes encoding *)

Module Utf8Facts.
Import Py Utf8 PyFacts.

(** *** The shifts and masks of the encoder as arithmetic *)

(** [N.lor hi x] is [hi + x] when [x] fits under the bits of [hi]: checked on
    every [x] below the bound. *)
Lemma lor_low (hi : N) (n : nat) :
  forallb (fun x => N.lor hi x =? hi + x) (below n) = true ->
  forall x, x < N.of_nat n -> N.lor hi x = hi + x.
Proof.
  intros H x Hx. apply N.eqb_eq.
  exact (forallb_below (fun x => N.lor hi x =? hi + x) n H x Hx).
Qed.

Lemma lor_80 x : x < 64 -> N.lor 0x80 x = 0x80 + x.
Proof. apply (lor_low 0x80 64). reflexivity. Qed.

Lemma lor_C0 x : x < 32 -> N.lor 0xC0 x = 0xC0 + x.
Proof. apply (lor_low 0xC0 32). reflexivity. Qed.

Lemma lor_E0 x : x < 16 -> N.lor 0xE0 x = 0xE0 + x.
Proof. apply (lor_low 0xE0 16). reflexivity. Qed.

Lemma lor_F0 x : x < 8 -> N.lor 0xF0 x = 0xF0 + x.
Proof. apply (lor_low 0xF0 8). reflexivity. Qed.

Lemma land_3F x : N.land x 0x3F = x mod 64.
Proof. change 0x3F with (N.ones 6). apply N.land_ones. Qed.

(** An octet built on a lead with the high bit set is not ASCII. *)
Lemma lor_high_bit hi x : N.testbit hi 7 = true -> 0x80 <= N.lor hi x.
Proof.
  intros H. destruct (N.le_gt_cases 0x80 (N.lor hi x)) as [|Hlt]; [assumption|].
  assert (N.testbit (N.lor hi x) 7 = false) as Hb.
  { destruct (N.eq_dec (N.lor hi x) 0) as [->|Hnz]; [reflexivity|].
    apply N.bits_above_log2. apply N.log2_lt_pow2; [lia|]. exact Hlt. }
  rewrite N.lor_spec, H in Hb. discriminate.
Qed.

Lemma encode_char_octets c :
  c < 0x110000 ->
  encode_char c = if is_surrogate c then None else Some (octets c).
Proof.
  intros Hc. unfold encode_char, octets, is_surrogate.
  rewrite !land_3F, !N.shiftr_div_pow2.
  change (2 ^ 6) with 64; change (2 ^ 12) with 4096; change (2 ^ 18) with 262144.
  destruct (N.ltb_spec c 0x80) as [H1|H1].
  { decide_tests. reflexivity. }
  destruct (N.ltb_spec c 0x800) as [H2|H2].
  { decide_tests. cbn [andb]. rewrite lor_C0 by lia. rewrite lor_80 by lia.
    reflexivity. }
  destruct (N.leb_spec 0xD800 c) as [H3|H3];
    destruct (N.leb_spec c 0xDFFF) as [H4|H4]; cbn [andb]; try reflexivity.
  all: destruct (N.ltb_spec c 0x10000) as [H5|H5]; try lia.
  all: rewrite ?lor_E0, ?lor_F0 by lia; rewrite !lor_80 by lia; reflexivity.
Qed.

(** The octets of a character past U+007F all have their high bit set,
    whatever the character. *)
Lemma encode_char_high c bs :
  encode_char c = Some bs ->
  (c < 0x80 /\ bs = [c]) \/ (0x80 <= c /\ Forall (fun y => 0x80 <= y) bs).
Proof.
  unfold encode_char.
  destruct (N.ltb_spec c 0x80) as [Hc|Hc].
  { intros E. apply Some_inj in E. now left. }
  intros E. right. split; [exact Hc|].
  destruct (c <? 0x800).
  { apply Some_inj in E. subst bs. repeat constructor; now apply lor_high_bit. }
  destruct (is_surrogate c); [discriminate|].
  destruct (c <? 0x10000); apply Some_inj in E; subst bs;
    repeat constructor; now apply lor_high_bit.
Qed.

(** Only surrogates are refused. *)
Lemma encode_char_None c : encode_char c = None <-> is_surrogate c = true.
Proof.
  unfold encode_char, is_surrogate.
  destruct (N.ltb_spec c 0x80); [split; [discriminate|]|].
  { intros H0. apply andb_true_iff in H0 as [H0 _]. apply N.leb_le in H0. lia. }
  destruct (N.ltb_spec c 0x800); [split; [discriminate|]|].
  { intros H1. apply andb_true_iff in H1 as [H1 _]. apply N.leb_le in H1. lia. }
  destruct ((0xD800 <=? c) && (c <=? 0xDFFF)); [tauto|].
  destruct (c <? 0x10000); split; discriminate.
Qed.

Lemma octets_wf c : c < 0x110000 -> wf_bytes (octets c).
Proof.
  intros Hc. unfold octets, wf_bytes.
  destruct (N.ltb_spec c 0x80); [|destruct (N.ltb_spec c 0x800);
    [|destruct (N.ltb_spec c 0x10000)]].
  all: repeat constructor; lia.
Qed.

(** *** The decoder on the octets of one character *)

(** One step of [decode], unfolded. *)
Lemma decode_cons b1 r1 :
  decode (b1 :: r1) =
    if b1 <? 0x80 then b1 :: decode r1
    else if b1 <? 0xC2 then REPLACEMENT :: decode r1
    else if b1 <? 0xE0 then
      match r1 with
      | [] => [REPLACEMENT]
      | b2 :: r2 =>
        if is_continuation b2
        then (N.shiftl b1 6 + b2 - (N.shiftl 0xC0 6 + 0x80)) :: decode r2
        else REPLACEMENT :: decode r1
      end
    else if b1 <? 0xF0 then
      match r1 with
      | [] => [REPLACEMENT]
      | b2 :: r2 =>
        if negb (is_continuation b2)
           || (if b2 <? 0xA0 then b1 =? 0xE0 else b1 =? 0xED)
        then REPLACEMENT :: decode r1
        else
          match r2 with
          | [] => [REPLACEMENT]
          | b3 :: r3 =>
            if is_continuation b3
            then (N.shiftl b1 12 + N.shiftl b2 6 + b3
                  - (N.shiftl 0xE0 12 + N.shiftl 0x80 6 + 0x80)) :: decode r3
            else REPLACEMENT :: decode r2
          end
      end
    else if b1 <? 0xF5 then
      match r1 with
      | [] => [REPLACEMENT]
      | b2 :: r2 =>
        if negb (is_continuation b2)
           || (if b2 <? 0x90 then b1 =? 0xF0 else b1 =? 0xF4)
        then REPLACEMENT :: decode r1
        else
          match r2 with
          | [] => [REPLACEMENT]
          | b3 :: r3 =>
            if negb (is_continuation b3) then REPLACEMENT :: decode r2
            else
              match r3 with
              | [] => [REPLACEMENT]
              | b4 :: r4 =>
                if is_continuation b4
                then (N.shiftl b1 18 + N.shiftl b2 12 + N.shiftl b3 6 + b4
                      - (N.shiftl 0xF0 18 + N.shiftl 0x80 12
                         + N.shiftl 0x80 6 + 0x80)) :: decode r4
                else REPLACEMENT :: decode r3
              end
          end
      end
    else REPLACEMENT :: decode r1.
Proof. reflexivity. Qed.

(** The decoder reads the octets of a character back as that character and
    goes on with what follows. *)
Lemma decode_octets c rest :
  c < 0x110000 -> is_surrogate c = false ->
  decode (octets c ++ rest) = c :: decode rest.
Proof.
  intros Hc Hs. unfold is_surrogate in Hs. unfold octets.
  destruct (N.ltb_spec c 0x80) as [H1|H1];
    [| destruct (N.ltb_spec c 0x800) as [H2|H2];
       [| destruct (N.ltb_spec c 0x10000) as [H3|H3]]].
  all: cbn [app]; rewrite decode_cons; unfold is_continuation.
  all: rewrite ?N.shiftl_mul_pow2.
  all: change (2 ^ 6) with 64; change (2 ^ 12) with 4096; change (2 ^ 18) with 262144.
  all: change (N.shiftl 192 6) with 12288.
  - decide_tests. reflexivity.
  - decide_tests. cbn [andb]. f_equal. lia.
  - assert (c < 0xD800 \/ 0xDFFF < c) as Hr.
    { destruct (N.leb_spec 0xD800 c); destruct (N.leb_spec c 0xDFFF);
        try lia; discriminate. }
    decide_tests. cbn [andb orb negb].
    destruct (N.ltb_spec (128 + (c / 64) mod 64) 160); decide_tests; f_equal; lia.
  - decide_tests. cbn [andb orb negb].
    destruct (N.ltb_spec (128 + (c / 4096) mod 64) 144); decide_tests; f_equal; lia.
Qed.

Lemma decode_ascii bs : Forall (fun b => b < 128) bs -> decode bs = bs.
Proof.
  induction 1 as [|b bs Hb _ IH]; [reflexivity|].
  rewrite decode_cons. apply N.ltb_lt in Hb. rewrite Hb. now rewrite IH.
Qed.

(** *** Whole strings *)

(** [encode] returns exactly on the strings without surrogates. *)
Lemma encode_Return_iff s :
  (exists bs, encode s = Return bs) <-> encodable s = true.
Proof.
  induction s as [|c s IH]; cbn [encode encodable forallb].
  - split; [reflexivity | now exists []].
  - fold (encodable s). destruct (encode_char c) as [bs0|] eqn:Ec.
    + assert (is_surrogate c = false) as ->.
      { destruct (is_surrogate c) eqn:Hs; [|reflexivity].
        apply encode_char_None in Hs. congruence. }
      cbn [negb andb]. rewrite <- IH. split.
      * intros [bs Hbs]. destruct (encode s) as [r|e]; [now exists r | discriminate].
      * intros [r ->]. now eexists.
    + apply encode_char_None in Ec. rewrite Ec. cbn [negb andb].
      split; [intros [bs Hbs]|]; discriminate.
Qed.

Lemma encode_Raise s e : encode s = Raise e -> e = surrogates_not_allowed.
Proof.
  induction s as [|c s IH]; cbn [encode]; [discriminate|].
  destruct (encode_char c); [|now intros [= <-]].
  destruct (encode s); cbn [bind]; [discriminate|].
  intros [= <-]. now apply IH.
Qed.

Lemma encode_app s t :
  encode (s ++ t) = (bs <- encode s ;; bt <- encode t ;; Return (bs ++ bt)).
Proof.
  induction s as [|c s IH]; cbn [app encode bind].
  - now destruct (encode t).
  - destruct (encode_char c); [|reflexivity]. rewrite IH.
    destruct (encode s); cbn [bind]; [|reflexivity].
    destruct (encode t); cbn [bind]; [|reflexivity].
    now rewrite app_assoc.
Qed.

Lemma encode_octets s bs :
  wf_str s -> encode s = Return bs -> bs = concat (map octets s).
Proof.
  intros Hwf. apply wf_str_Forall in Hwf. revert bs.
  induction Hwf as [|c s Hc Hwf IH]; cbn [encode]; intros bs.
  - now intros [= <-].
  - rewrite (encode_char_octets c Hc).
    destruct (is_surrogate c); [discriminate|].
    destruct (encode s) as [r|e]; cbn [bind]; [|discriminate].
    intros [= <-]. cbn [map concat]. now rewrite (IH r).
Qed.

Lemma decode_concat_octets s :
  wf_str s -> encodable s = true -> decode (concat (map octets s)) = s.
Proof.
  intros Hwf. apply wf_str_Forall in Hwf.
  induction Hwf as [|c s Hc Hwf IH]; cbn [encodable forallb map concat].
  - reflexivity.
  - intros H. apply andb_true_iff in H as [Hs He]. apply negb_true_iff in Hs.
    rewrite decode_octets by assumption. f_equal. now apply IH.
Qed.

(** Decoding undoes encoding. *)
Lemma decode_encode s bs : wf_str s -> encode s = Return bs -> decode bs = s.
Proof.
  intros Hwf He. rewrite (encode_octets s bs Hwf He).
  apply decode_concat_octets; [assumption|].
  apply encode_Return_iff. now exists bs.
Qed.

Lemma encode_wf_bytes s bs : wf_str s -> encode s = Return bs -> wf_bytes bs.
Proof.
  intros Hwf He. rewrite (encode_octets s bs Hwf He). clear He.
  apply wf_str_Forall in Hwf.
  induction Hwf as [|c s Hc Hwf IH]; cbn [map concat]; [constructor|].
  apply Forall_app. split; [now apply octets_wf | exact IH].
Qed.

(** *** Spaces, literals and numerals *)

(** A space among the octets is a space of the text. *)
Lemma encode_char_space c bs :
  encode_char c = Some bs -> contains (chr " ") bs = contains (chr " ") [c].
Proof.
  intros H. apply encode_char_high in H as [[_ ->]|[Hc Hbs]]; [reflexivity|].
  transitivity false.
  - apply Forall_contains_false. eapply Forall_impl; [|exact Hbs].
    intros y Hy E. subst y. cbv in Hy. now apply Hy.
  - symmetry. apply contains_false_cons. split; [|reflexivity].
    intros E. rewrite <- E in Hc. cbv in Hc. now apply Hc.
Qed.

Lemma encode_space s bs :
  encode s = Return bs -> contains (chr " ") bs = contains (chr " ") s.
Proof.
  revert bs. induction s as [|c s IH]; intros bs; cbn [encode].
  - now intros [= <-].
  - destruct (encode_char c) as [bc|] eqn:Ec; [|discriminate].
    destruct (encode s) as [r|e]; cbn [bind]; [|discriminate].
    intros [= <-]. rewrite contains_app, (encode_char_space c bc Ec), (IH r eq_refl).
    unfold contains. cbn [existsb]. now rewrite orb_false_r.
Qed.

(** ASCII text is its own encoding. *)
Lemma encode_ascii s : Forall (fun c => c < 128) s -> encode s = Return s.
Proof.
  induction 1 as [|c s Hc _ IH]; [reflexivity|].
  cbn [encode]. unfold encode_char. apply N.ltb_lt in Hc.
  assert ((c <? 0x80) = true) as -> by exact Hc.
  rewrite IH. reflexivity.
Qed.

Lemma encodable_app s t : encodable (s ++ t) = encodable s && encodable t.
Proof. apply forallb_app. Qed.

Lemma lit_encodable s : encodable (lit s) = true.
Proof.
  unfold encodable, lit. rewrite forallb_forall. intros c Hc.
  apply in_map_iff in Hc as (a & <- & _). pose proof (N_ascii_bounded a).
  unfold is_surrogate. apply negb_true_iff, andb_false_iff. left.
  apply N.leb_gt. lia.
Qed.

Lemma str_int_encodable n : encodable (str_int n) = true.
Proof. apply lit_encodable. Qed.

End Utf8Facts.

(** ** urllib.parse: unquote_plus undoes quote_plus *)

Module UrllibFacts.
Import Py Urllib PyFacts Utf8Facts.

(** *** unquote_to_bytes *)

Lemma unquote_to_bytes_pieces l : unquote_to_bytes l = pieces l.
Proof.
  unfold unquote_to_bytes, pieces. destruct l as [|c l]; [reflexivity|].
  destruct (split (chr "%") (c :: l)) as [|first [|second rest]] eqn:E.
  - now apply split_nonempty in E.
  - apply split_single in E. subst first. cbn. now rewrite app_nil_r.
  - reflexivity.
Qed.

Lemma pieces_cons_other c l : c <> chr "%" -> pieces (c :: l) = c :: pieces l.
Proof. intros Hc. unfold pieces. now rewrite split_cons_other. Qed.

Lemma pieces_escape h1 h2 b l :
  h1 <> chr "%" -> h2 <> chr "%" -> hextobyte [h1; h2] = Some b ->
  pieces (chr "%" :: h1 :: h2 :: l) = b :: pieces l.
Proof.
  intros H1 H2 Hb. unfold pieces.
  rewrite split_cons_sep, split_cons_other by assumption.
  rewrite split_cons_other by assumption.
  cbn [hd tl map concat app]. unfold unquote_item at 1.
  change (hextobyte (h1 :: h2 :: hd [] (split (chr "%") l)))
    with (hextobyte [h1; h2]).
  rewrite Hb. reflexivity.
Qed.

(** *** Hexadecimal digits *)

Lemma hex_upper_In d : In (hex_upper d) (lit "0123456789ABCDEF").
Proof.
  unfold hex_upper.
  destruct (nth_in_or_default (N.to_nat d) (lit "0123456789ABCDEF") (chr "0"))
    as [H| ->]; [exact H | now left].
Qed.

Lemma hex_upper_not c d :
  contains c (lit "0123456789ABCDEF") = false -> hex_upper d <> c.
Proof.
  intros Hc E. rewrite <- E in Hc.
  pose proof (proj2 (contains_In _ _) (hex_upper_In d)). congruence.
Qed.

(** The two digits of an octet read back as the octet: checked on all 256. *)
Lemma hextobyte_format b :
  b < 256 -> hextobyte [hex_upper (b / 16); hex_upper (b mod 16)] = Some b.
Proof.
  intros Hb.
  pose (P := fun b => match hextobyte [hex_upper (b / 16); hex_upper (b mod 16)] with
                      | Some b' => b' =? b
                      | None => false
                      end).
  assert (P b = true) as HP by (apply (forallb_below P 256); [reflexivity | exact Hb]).
  unfold P in HP. destruct (hextobyte _) as [b'|]; [|discriminate].
  apply N.eqb_eq in HP. now subst.
Qed.

(** *** quote_from_bytes *)

Lemma quote_all_safe S bs :
  forallb (fun b => contains b S) bs = true -> concat (map (quoter S) bs) = bs.
Proof.
  induction bs as [|b bs IH]; [reflexivity|]. cbn [forallb map concat].
  intros H. apply andb_true_iff in H as [Hb Hbs].
  unfold quoter at 1. rewrite Hb. cbn [app]. now rewrite IH.
Qed.

(** The shortcut for safe octets changes nothing: every octet goes through
    the quoter. *)
Lemma quote_from_bytes_map bs safe :
  quote_from_bytes bs safe = concat (map (quoter (safe_set safe)) bs).
Proof.
  unfold quote_from_bytes. fold (safe_set safe).
  destruct bs as [|b bs]; [reflexivity|].
  destruct (forallb _ (b :: bs)) eqn:E; [|reflexivity].
  symmetry. now apply quote_all_safe.
Qed.

(** [unquote_to_bytes] undoes the quoter. *)
Lemma pieces_quote S bs :
  contains (chr "%") S = false -> wf_bytes bs ->
  pieces (concat (map (quoter S) bs)) = bs.
Proof.
  intros HS Hwf. induction Hwf as [|b bs Hb Hwf IH]; [reflexivity|].
  cbn [map concat]. unfold quoter at 1. destruct (contains b S) eqn:Eb.
  - cbn [app]. rewrite pieces_cons_other; [now rewrite IH|].
    intros ->. congruence.
  - unfold format_02X. cbn [app].
    rewrite (pieces_escape _ _ b); [now rewrite IH | | |].
    + now apply hex_upper_not.
    + now apply hex_upper_not.
    + now apply hextobyte_format.
Qed.

(** What holds of the safe characters, of [%] and of the digits holds of
    the quoted text. *)
Lemma quote_chars (P : N -> Prop) S bs :
  Forall P S -> P (chr "%") -> Forall P (lit "0123456789ABCDEF") ->
  Forall P (concat (map (quoter S) bs)).
Proof.
  intros HS Hpct Hhex.
  assert (forall d, P (hex_upper d)) as Hd.
  { intros d. exact (proj1 (Forall_forall _ _) Hhex _ (hex_upper_In d)). }
  induction bs as [|b bs IH]; [constructor|]. cbn [map concat].
  apply Forall_app. split; [|exact IH].
  unfold quoter. destruct (contains b S) eqn:Eb.
  - constructor; [|constructor]. apply contains_In in Eb.
    exact (proj1 (Forall_forall _ _) HS _ Eb).
  - unfold format_02X. repeat constructor; auto.
Qed.

(** *** unquote *)

Lemma ascii_runs_ascii c l :
  Forall (fun x => x < 128) (c :: l) -> ascii_runs (c :: l) = [(true, c :: l)].
Proof.
  revert c. induction l as [|d l IH]; intros c H; inversion H as [|? ? Hc Hl]; subst.
  - cbn [ascii_runs]. apply N.ltb_lt in Hc. now rewrite Hc.
  - change (ascii_runs (c :: d :: l))
      with (let a := c <? 128 in
            match ascii_runs (d :: l) with
            | (a', run) :: runs =>
                if Bool.eqb a a' then (a, c :: run) :: runs
                else (a, [c]) :: (a', run) :: runs
            | [] => [(a, [c])]
            end).
    rewrite (IH d Hl). apply N.ltb_lt in Hc. cbn zeta. now rewrite Hc.
Qed.

(** On ASCII text, [unquote] decodes what [unquote_to_bytes] returns. *)
Lemma unquote_ascii q :
  Forall (fun x => x < 128) q -> unquote q = Utf8.decode (unquote_to_bytes q).
Proof.
  intros Hq. unfold unquote. destruct (contains (chr "%") q) eqn:E; cbn [negb].
  - destruct q as [|c q]; [discriminate|].
    rewrite ascii_runs_ascii by exact Hq. cbn [map concat fst snd].
    now rewrite app_nil_r.
  - rewrite unquote_to_bytes_pieces. unfold pieces.
    rewrite split_no_sep by exact E. cbn [hd tl map concat].
    rewrite app_nil_r. symmetry. now apply decode_ascii.
Qed.

Lemma is_plain_ascii_spec c :
  is_plain_ascii c = true -> c < 128 /\ c <> chr "%" /\ c <> chr "+".
Proof.
  unfold is_plain_ascii.
  rewrite !andb_true_iff, !negb_true_iff, N.ltb_lt, !N.eqb_neq. tauto.
Qed.

(** Text quoted over a set of plain ASCII characters has no [+], and
    [unquote] gives the original back. *)
Lemma unquote_quoted S s bs q :
  forallb is_plain_ascii S = true ->
  wf_str s -> Utf8.encode s = Return bs ->
  q = concat (map (quoter S) bs) ->
  contains (chr "+") q = false /\ unquote q = s.
Proof.
  intros HS Hwf He ->.
  assert (Forall (fun c => c < 128 /\ c <> chr "%" /\ c <> chr "+") S) as HS'.
  { apply Forall_forall. intros c Hc. apply is_plain_ascii_spec.
    rewrite forallb_forall in HS. now apply HS. }
  split.
  - apply Forall_contains_false. apply quote_chars.
    + eapply Forall_impl; [|exact HS']. cbn. tauto.
    + discriminate.
    + repeat constructor; discriminate.
  - rewrite unquote_ascii.
    + rewrite unquote_to_bytes_pieces, pieces_quote.
      * now apply decode_encode.
      * destruct (contains (chr "%") S) eqn:E; [|reflexivity].
        apply contains_In in E.
        destruct (proj1 (Forall_forall _ _) HS' _ E) as (_ & H & _). congruence.
      * now apply (encode_wf_bytes s).
    + apply quote_chars.
      * eapply Forall_impl; [|exact HS']. cbn. tauto.
      * reflexivity.
      * repeat constructor.
Qed.

(** *** quote and quote_plus *)

Lemma quote_bytewise s safe :
  quote s safe
  = (bs <- Utf8.encode s ;; Return (concat (map (quoter (safe_set safe)) bs))).
Proof.
  unfold quote. destruct s as [|c s]; [reflexivity|].
  destruct (Utf8.encode (c :: s)); cbn [bind]; [|reflexivity].
  now rewrite quote_from_bytes_map.
Qed.

Lemma quote_Return string safe q :
  quote string safe = Return q ->
  exists bs, Utf8.encode string = Return bs /\
             q = concat (map (quoter (safe_set safe)) bs).
Proof.
  rewrite quote_bytewise.
  destruct (Utf8.encode string) as [bs|e]; cbn [bind]; [|discriminate].
  intros [= <-]. now exists bs.
Qed.

(** [unquote_plus] undoes [quote_plus]. *)
Lemma unquote_plus_quote_plus s q :
  wf_str s -> quote_plus s [] = Return q -> unquote_plus q = s.
Proof.
  intros Hwf. unfold quote_plus, unquote_plus.
  destruct (contains (chr " ") s); cbn [negb].
  - destruct (quote s ([] ++ [chr " "])) as [q0|e] eqn:Eq; cbn [bind]; [|discriminate].
    intros [= <-]. apply quote_Return in Eq as (bs & He & Hq).
    destruct (unquote_quoted _ s bs q0
                (eq_refl : forallb is_plain_ascii (safe_set ([] ++ [chr " "])) = true)
                Hwf He Hq) as [Hplus Hun].
    now rewrite replace_char_inverse.
  - intros Eq. apply quote_Return in Eq as (bs & He & Hq).
    destruct (unquote_quoted _ s bs q
                (eq_refl : forallb is_plain_ascii (safe_set []) = true)
                Hwf He Hq) as [Hplus Hun].
    now rewrite replace_char_absent.
Qed.

(** A [quote_plus] token is made of unreserved characters, [%] and [+]. *)
Lemma quote_plus_token_chars s q :
  quote_plus s [] = Return q -> Forall (fun c => is_token_char c = true) q.
Proof.
  unfold quote_plus. destruct (contains (chr " ") s); cbn [negb].
  - destruct (quote s ([] ++ [chr " "])) as [q0|e] eqn:Eq; cbn [bind]; [|discriminate].
    intros [= <-]. apply quote_Return in Eq as (bs & _ & ->).
    unfold replace_char. apply Forall_map.
    apply (quote_chars
             (fun c => is_token_char (if c =? chr " " then chr "+" else c) = true)).
    + apply (Forall_forallb
               (fun c => is_token_char (if c =? chr " " then chr "+" else c))).
      reflexivity.
    + reflexivity.
    + apply (Forall_forallb
               (fun c => is_token_char (if c =? chr " " then chr "+" else c))).
      reflexivity.
  - intros Eq. apply quote_Return in Eq as (bs & _ & ->).
    apply quote_chars.
    + apply (Forall_forallb is_token_char). reflexivity.
    + reflexivity.
    + apply (Forall_forallb is_token_char). reflexivity.
Qed.

Lemma token_char_absent c tok :
  is_token_char c = false -> Forall (fun x => is_token_char x = true) tok ->
  contains c tok = false.
Proof.
  intros Hc Htok. apply Forall_contains_false.
  eapply Forall_impl; [|exact Htok].
  intros x Hx E. cbv beta in Hx. subst x. congruence.
Qed.

(** *** quote_plus, octet by octet *)

Lemma quoter_no_space b :
  b <> chr " " -> quoter (safe_set []) b = plus_quoter b.
Proof.
  intros Hb. unfold quoter, plus_quoter, safe_set. cbn [filter]. rewrite app_nil_r.
  destruct (contains b ALWAYS_SAFE); [reflexivity|].
  apply N.eqb_neq in Hb. now rewrite Hb.
Qed.

Lemma replace_hex b :
  replace_char (chr " ") (chr "+") (format_02X b) = format_02X b.
Proof.
  apply replace_char_absent. unfold format_02X.
  apply Forall_contains_false. repeat constructor; try discriminate;
    apply hex_upper_not; reflexivity.
Qed.

Lemma quoter_space b :
  replace_char (chr " ") (chr "+") (quoter (safe_set ([] ++ [chr " "])) b)
  = plus_quoter b.
Proof.
  unfold quoter, plus_quoter, safe_set. cbn [app filter].
  change (chr " " <? 128) with true. cbv iota. rewrite contains_app.
  destruct (contains b ALWAYS_SAFE) eqn:Es; cbn [orb].
  - assert (b <> chr " ") as Hb by (intros ->; discriminate).
    apply N.eqb_neq in Hb. cbn [replace_char map]. now rewrite Hb.
  - unfold contains at 1. cbn [existsb]. rewrite orb_false_r.
    destruct (N.eqb_spec b (chr " ")) as [->|Hb].
    + reflexivity.
    + apply replace_hex.
Qed.

(** Both branches of [quote_plus] do the same to each octet of the encoded
    text: keep an unreserved character, turn a space into [+], escape the
    rest. *)
Lemma quote_plus_bytewise s :
  quote_plus s [] = (bs <- Utf8.encode s ;; Return (concat (map plus_quoter bs))).
Proof.
  unfold quote_plus. rewrite !quote_bytewise.
  destruct (Utf8.encode s) as [bs|e] eqn:Ee; cbn [bind].
  - rewrite <- (encode_space s bs Ee).
    destruct (contains (chr " ") bs) eqn:Esp; cbn [negb bind]; f_equal.
    + rewrite replace_char_concat, map_map. f_equal.
      apply map_ext. intros b. apply quoter_space.
    + f_equal. apply map_ext_in. intros b Hb. apply quoter_no_space.
      intros ->. apply contains_In in Hb. congruence.
  - now destruct (contains (chr " ") s).
Qed.

(** [quote_plus] returns exactly on the strings without surrogates. *)
Lemma quote_plus_Return_iff s :
  (exists q, quote_plus s [] = Return q) <-> Utf8.encodable s = true.
Proof.
  rewrite <- encode_Return_iff, quote_plus_bytewise. split.
  - intros [q Hq]. destruct (Utf8.encode s) as [bs|e]; [now exists bs | discriminate].
  - intros [bs ->]. eexists. reflexivity.
Qed.

(** What [quote_plus] raises is the encoder's [UnicodeEncodeError]. *)
Lemma quote_plus_Raise s e :
  quote_plus s [] = Raise e -> e = Utf8.surrogates_not_allowed.
Proof.
  rewrite quote_plus_bytewise.
  destruct (Utf8.encode s) as [bs|e'] eqn:E; cbn [bind]; [discriminate|].
  intros [= <-]. now apply encode_Raise in E.
Qed.

(** [quote_plus] of a concatenation: the parts are quoted one by one. *)
Lemma quote_plus_app s t :
  quote_plus (s ++ t) []
  = (qs <- quote_plus s [] ;; qt <- quote_plus t [] ;; Return (qs ++ qt)).
Proof.
  rewrite !quote_plus_bytewise, encode_app.
  destruct (Utf8.encode s); cbn [bind]; [|reflexivity].
  destruct (Utf8.encode t); cbn [bind]; [|reflexivity].
  now rewrite map_app, concat_app.
Qed.

Lemma quote_plus_lit_app (prefix qprefix : string) t :
  quote_plus (lit prefix) [] = Return (lit qprefix) ->
  quote_plus (lit prefix ++ t) []
  = (qt <- quote_plus t [] ;; Return (lit qprefix ++ qt)).
Proof. intros H. now rewrite quote_plus_app, H. Qed.

(** Text made of unreserved characters is left as it is. *)
Lemma quote_plus_safe s :
  forallb (fun c => contains c ALWAYS_SAFE) s = true -> quote_plus s [] = Return s.
Proof.
  intros Hs. rewrite quote_plus_bytewise, encode_ascii.
  - cbn [bind]. f_equal. induction s as [|c s IH]; [reflexivity|].
    cbn [forallb] in Hs. apply andb_true_iff in Hs as [Hc Hs].
    cbn [map concat]. unfold plus_quoter at 1. rewrite Hc. cbn [app].
    now rewrite IH.
  - apply Forall_forall. intros c Hc. rewrite forallb_forall in Hs.
    specialize (Hs c Hc). apply contains_In in Hs.
    apply N.ltb_lt. revert Hs. generalize c. apply Forall_forall.
    apply (Forall_forallb (fun c => c <? 128)). reflexivity.
Qed.

Lemma uint_digits d :
  forallb (fun c => contains c ALWAYS_SAFE)
          (lit (NilEmpty.string_of_uint d)) = true.
Proof.
  induction d; cbn [NilEmpty.string_of_uint]; try reflexivity;
    unfold lit in *; cbn [list_ascii_of_string map forallb]; rewrite IHd;
    reflexivity.
Qed.

(** A numeral is digits behind an optional [-]: all unreserved. *)
Lemma str_int_safe n :
  forallb (fun c => contains c ALWAYS_SAFE) (str_int n) = true.
Proof.
  unfold str_int, NilZero.string_of_int, NilZero.string_of_uint.
  destruct (Z.to_int n) as [d|d].
  - destruct d; try reflexivity; apply uint_digits.
  - unfold lit. cbn [list_ascii_of_string map forallb].
    rewrite andb_true_iff. split; [reflexivity|].
    destruct d; try reflexivity; apply uint_digits.
Qed.

Lemma quote_plus_str_int n : quote_plus (str_int n) [] = Return (str_int n).
Proof. apply quote_plus_safe, str_int_safe. Qed.

Lemma quote_plus_SSL : quote_plus (lit "SSL") [] = Return (lit "SSL").
Proof. reflexivity. Qed.

(** *** Query parameters *)

(** A URL that ends in [?dsn=] and a token without [&] has one query
    parameter. *)
Lemma query_params_dsn tok :
  contains (chr "&") tok = false ->
  query_params (lit "ibm_db_sa:///?dsn=" ++ tok) = [(lit "dsn", tok)].
Proof.
  intros Hamp. unfold query_params.
  change (partition (chr "?") (lit "ibm_db_sa:///?dsn=" ++ tok))
    with (lit "ibm_db_sa:///", Some (lit "dsn=" ++ tok)).
  cbn [snd]. rewrite split_no_sep.
  - reflexivity.
  - rewrite contains_app, Hamp. reflexivity.
Qed.

End UrllibFacts.

(** ** The descriptors of src/app.py *)

Module AppFacts.
Import Py Urllib App PyFacts Utf8Facts UrllibFacts.

(** *** Method A *)

Lemma dsn_attrs_shape user password host port database ca_cert_path
    connect_timeout :
  dsn_attrs user password host port database ca_cert_path connect_timeout =
    [ lit "DATABASE=" ++ database;
      lit "HOSTNAME=" ++ host;
      lit "PORT=" ++ str_int port;
      lit "PROTOCOL=TCPIP";
      lit "UID=" ++ user;
      lit "PWD=" ++ password;
      lit "Security=SSL";
      lit "CONNECTTIMEOUT=" ++ str_int connect_timeout ]
    ++ match ca_cert_path with
       | Some (c :: path) => [lit "SSLServerCertificate=" ++ c :: path]
       | Some [] | None => []
       end.
Proof. destruct ca_cert_path as [[|c path]|]; reflexivity. Qed.

(** The joined attribute list, written out. *)
Lemma dsn_flat user password host port database ca_cert_path connect_timeout :
  dsn user password host port database ca_cert_path connect_timeout =
    lit "DATABASE=" ++ database ++ lit ";HOSTNAME=" ++ host
    ++ lit ";PORT=" ++ str_int port ++ lit ";PROTOCOL=TCPIP;UID=" ++ user
    ++ lit ";PWD=" ++ password ++ lit ";Security=SSL;CONNECTTIMEOUT="
    ++ str_int connect_timeout ++ cert_suffix ca_cert_path.
Proof.
  unfold dsn. rewrite dsn_attrs_shape.
  destruct ca_cert_path as [[|c path]|]; cbn [app join cert_suffix];
    repeat rewrite <- app_assoc; rewrite ?app_nil_r; reflexivity.
Qed.

Lemma cert_suffix_wf ca_cert_path :
  wf_path ca_cert_path -> wf_str (cert_suffix ca_cert_path).
Proof.
  destruct ca_cert_path as [[|c path]|]; cbn [cert_suffix]; intros H;
    [reflexivity | | reflexivity].
  apply wf_str_app. split; [apply lit_wf | exact H].
Qed.

Lemma dsn_wf user password host port database ca_cert_path connect_timeout :
  wf_str user -> wf_str password -> wf_str host -> wf_str database ->
  wf_path ca_cert_path ->
  wf_str (dsn user password host port database ca_cert_path connect_timeout).
Proof.
  intros Hu Hp Hh Hd Hc. rewrite dsn_flat.
  repeat (apply wf_str_app; split);
    auto using lit_wf, str_int_wf, cert_suffix_wf.
Qed.

Lemma cert_suffix_encodable ca_cert_path :
  Utf8.encodable (cert_suffix ca_cert_path) =
  if truthy ca_cert_path then Utf8.encodable (path_of ca_cert_path) else true.
Proof. destruct ca_cert_path as [[|c path]|]; reflexivity. Qed.

(** The joined attribute list can be encoded when the values can. *)
Lemma dsn_encodable user password host port database ca_cert_path connect_timeout :
  Utf8.encodable (dsn user password host port database ca_cert_path connect_timeout) =
    Utf8.encodable database && Utf8.encodable host && Utf8.encodable user
    && Utf8.encodable password
    && (if truthy ca_cert_path then Utf8.encodable (path_of ca_cert_path) else true).
Proof.
  rewrite dsn_flat. rewrite !encodable_app, !lit_encodable, !str_int_encodable.
  rewrite cert_suffix_encodable. cbn [andb].
  destruct (Utf8.encodable database), (Utf8.encodable host), (Utf8.encodable user),
    (Utf8.encodable password); reflexivity.
Qed.

Lemma create_engine_with_dsn_inv user password host port database
    ca_cert_path connect_timeout h :
  create_engine_with_dsn user password host port database ca_cert_path
    connect_timeout = Return h ->
  exists tok,
    quote_plus (dsn user password host port database ca_cert_path connect_timeout) []
      = Return tok
    /\ h = create_engine (lit "ibm_db_sa:///?dsn=" ++ tok) 5 10 true.
Proof.
  unfold create_engine_with_dsn.
  destruct (quote_plus _ []) as [tok|e]; cbn [bind]; [|discriminate].
  intros [= <-]. now exists tok.
Qed.

(** Method A returns an engine exactly when the joined attribute list has no
    surrogate. *)
Lemma create_engine_with_dsn_Return_iff user password host port database
    ca_cert_path connect_timeout :
  (exists h, create_engine_with_dsn user password host port database ca_cert_path
               connect_timeout = Return h)
  <-> Utf8.encodable
        (dsn user password host port database ca_cert_path connect_timeout) = true.
Proof.
  rewrite <- quote_plus_Return_iff. unfold create_engine_with_dsn. split.
  - intros [h H]. destruct (quote_plus _ []) as [tok|e]; [now exists tok | discriminate].
  - intros [tok ->]. eexists. reflexivity.
Qed.

(** The only exception of method A is the encoder's. *)
Lemma create_engine_with_dsn_Raise user password host port database
    ca_cert_path connect_timeout e :
  create_engine_with_dsn user password host port database ca_cert_path
    connect_timeout = Raise e ->
  e = Utf8.surrogates_not_allowed.
Proof.
  unfold create_engine_with_dsn.
  destruct (quote_plus _ []) as [tok|e'] eqn:E; cbn [bind]; [discriminate|].
  intros [= <-]. now apply quote_plus_Raise in E.
Qed.

Lemma quote_plus_cert_suffix c path :
  quote_plus (cert_suffix (Some (c :: path))) []
  = (q <- quote_plus (c :: path) [] ;;
     Return (lit "%3BSSLServerCertificate%3D" ++ q)).
Proof.
  cbn [cert_suffix].
  now rewrite (quote_plus_lit_app ";SSLServerCertificate=" "%3BSSLServerCertificate%3D").
Qed.

(** The token of method A, attribute by attribute: every [;] and [=] the
    builder wrote is escaped, every value is quoted on its own. *)
Lemma quote_plus_dsn user password host port database ca_cert_path connect_timeout :
  quote_plus (dsn user password host port database ca_cert_path connect_timeout) []
  = (qdatabase <- quote_plus database [] ;;
     qhost <- quote_plus host [] ;;
     quser <- quote_plus user [] ;;
     qpassword <- quote_plus password [] ;;
     qcert <- quote_plus (cert_suffix ca_cert_path) [] ;;
     Return (lit "DATABASE%3D" ++ qdatabase ++ lit "%3BHOSTNAME%3D" ++ qhost
             ++ lit "%3BPORT%3D" ++ str_int port
             ++ lit "%3BPROTOCOL%3DTCPIP%3BUID%3D" ++ quser
             ++ lit "%3BPWD%3D" ++ qpassword
             ++ lit "%3BSecurity%3DSSL%3BCONNECTTIMEOUT%3D"
             ++ str_int connect_timeout ++ qcert)).
Proof.
  rewrite dsn_flat.
  rewrite (quote_plus_lit_app "DATABASE=" "DATABASE%3D") by reflexivity.
  rewrite quote_plus_app.
  destruct (quote_plus database []) as [qdatabase|e]; cbn [bind]; [|reflexivity].
  rewrite (quote_plus_lit_app ";HOSTNAME=" "%3BHOSTNAME%3D") by reflexivity.
  rewrite quote_plus_app.
  destruct (quote_plus host []) as [qhost|e]; cbn [bind]; [|reflexivity].
  rewrite (quote_plus_lit_app ";PORT=" "%3BPORT%3D") by reflexivity.
  rewrite quote_plus_app, quote_plus_str_int. cbn [bind].
  rewrite (quote_plus_lit_app ";PROTOCOL=TCPIP;UID=" "%3BPROTOCOL%3DTCPIP%3BUID%3D")
    by reflexivity.
  rewrite quote_plus_app.
  destruct (quote_plus user []) as [quser|e]; cbn [bind]; [|reflexivity].
  rewrite (quote_plus_lit_app ";PWD=" "%3BPWD%3D") by reflexivity.
  rewrite quote_plus_app.
  destruct (quote_plus password []) as [qpassword|e]; cbn [bind]; [|reflexivity].
  rewrite (quote_plus_lit_app ";Security=SSL;CONNECTTIMEOUT="
             "%3BSecurity%3DSSL%3BCONNECTTIMEOUT%3D") by reflexivity.
  rewrite quote_plus_app, quote_plus_str_int. cbn [bind].
  destruct (quote_plus (cert_suffix ca_cert_path) []) as [qcert|e]; cbn [bind];
    [|reflexivity].
  repeat rewrite <- app_assoc; reflexivity.
Qed.

(** The URL of method A, attribute by attribute. *)
Lemma create_engine_with_dsn_explicit user password host port database
    ca_cert_path connect_timeout h :
  create_engine_with_dsn user password host port database ca_cert_path
    connect_timeout = Return h ->
  exists qdatabase qhost quser qpassword qcert,
    quote_plus database [] = Return qdatabase
    /\ quote_plus host [] = Return qhost
    /\ quote_plus user [] = Return quser
    /\ quote_plus password [] = Return qpassword
    /\ quote_plus (cert_suffix ca_cert_path) [] = Return qcert
    /\ engine_url h
       = lit "ibm_db_sa:///?dsn=DATABASE%3D" ++ qdatabase
         ++ lit "%3BHOSTNAME%3D" ++ qhost
         ++ lit "%3BPORT%3D" ++ str_int port
         ++ lit "%3BPROTOCOL%3DTCPIP%3BUID%3D" ++ quser
         ++ lit "%3BPWD%3D" ++ qpassword
         ++ lit "%3BSecurity%3DSSL%3BCONNECTTIMEOUT%3D"
         ++ str_int connect_timeout ++ qcert.
Proof.
  intros H. apply create_engine_with_dsn_inv in H as (tok & Hq & ->).
  rewrite quote_plus_dsn in Hq.
  destruct (quote_plus database []) as [qdatabase|e]; cbn [bind] in Hq; [|discriminate].
  destruct (quote_plus host []) as [qhost|e]; cbn [bind] in Hq; [|discriminate].
  destruct (quote_plus user []) as [quser|e]; cbn [bind] in Hq; [|discriminate].
  destruct (quote_plus password []) as [qpassword|e]; cbn [bind] in Hq;
    [|discriminate].
  destruct (quote_plus (cert_suffix ca_cert_path) []) as [qcert|e];
    cbn [bind] in Hq; [|discriminate].
  apply Return_inj in Hq. subst tok.
  exists qdatabase, qhost, quser, qpassword, qcert. repeat split.
Qed.

(** The joined attribute list is not sanitized: a value that holds [;] and
    [=] reads as one more attribute once the list is cut at [;] again. *)
Lemma delimiter_collision :
  let password := lit "x;SSLServerCertificate=/tmp/rogue.pem" in
  has_attr SSLServerCertificate
    (dsn_attrs (lit "db2user") password (lit "db2-prod.example.com") 50000
       (lit "MYDB") None 10) = false
  /\ has_attr SSLServerCertificate
       (split (chr ";")
          (dsn (lit "db2user") password (lit "db2-prod.example.com") 50000
             (lit "MYDB") None 10)) = true.
Proof. split; reflexivity. Qed.

(** *** Method B *)

Lemma params_shape ca_cert_path connect_timeout :
  params ca_cert_path connect_timeout =
    [ (lit "security", lit "SSL");
      (lit "connecttimeout", str_int connect_timeout) ]
    ++ match ca_cert_path with
       | Some (c :: path) => [(lit "SSLServerCertificate", c :: path)]
       | Some [] | None => []
       end.
Proof. destruct ca_cert_path as [[|c path]|]; reflexivity. Qed.

(** The URL of method B, field by field. *)
Lemma create_engine_with_url_params_inv user password host port database
    ca_cert_path connect_timeout h :
  create_engine_with_url_params user password host port database ca_cert_path
    connect_timeout = Return h ->
  exists quser qpassword qcert,
    quote_plus user [] = Return quser
    /\ quote_plus password [] = Return qpassword
    /\ quoted_cert ca_cert_path qcert
    /\ h = create_engine
             (lit "ibm_db_sa://" ++ quser ++ lit ":" ++ qpassword ++ lit "@"
              ++ host ++ lit ":" ++ str_int port ++ lit "/" ++ database
              ++ lit "?" ++ query_string connect_timeout qcert) 5 10 true.
Proof.
  unfold create_engine_with_url_params.
  destruct (quote_plus user []) as [quser|e]; cbn [bind]; [|discriminate].
  destruct (quote_plus password []) as [qpassword|e]; cbn [bind]; [|discriminate].
  rewrite params_shape. cbn [app quote_items].
  rewrite quote_plus_SSL, quote_plus_str_int. cbn [bind].
  assert (forall qs : str,
            (lit "ibm_db_sa://" ++ quser ++ lit ":" ++ qpassword ++ lit "@"
             ++ host ++ lit ":" ++ str_int port ++ lit "/" ++ database) ++ qs
          = lit "ibm_db_sa://" ++ quser ++ lit ":" ++ qpassword ++ lit "@"
            ++ host ++ lit ":" ++ str_int port ++ lit "/" ++ database ++ qs)
    as Hbase.
  { intros qs. repeat rewrite <- app_assoc. reflexivity. }
  destruct ca_cert_path as [[|c path]|]; cbn [quote_items bind].
  - intros E. apply Return_inj in E. subst h.
    exists quser, qpassword, None. repeat split.
    rewrite <- Hbase. unfold query_string. rewrite app_nil_r. reflexivity.
  - destruct (quote_plus (c :: path) []) as [q|e] eqn:Eq; cbn [bind];
      [|discriminate].
    intros E. apply Return_inj in E. subst h.
    exists quser, qpassword, (Some q).
    split; [reflexivity|]. split; [reflexivity|].
    split; [exists q; split; [reflexivity | exact Eq]|].
    rewrite <- Hbase. f_equal; unfold query_string; cbn [join app];
      repeat rewrite <- app_assoc; reflexivity.
  - intros E. apply Return_inj in E. subst h.
    exists quser, qpassword, None. repeat split.
    rewrite <- Hbase. unfold query_string. rewrite app_nil_r. reflexivity.
Qed.

(** Method B returns an engine exactly when user, password and certificate
    path have no surrogate: host and database are never encoded. *)
Lemma create_engine_with_url_params_Return_iff user password host port database
    ca_cert_path connect_timeout :
  (exists h, create_engine_with_url_params user password host port database
               ca_cert_path connect_timeout = Return h)
  <-> Utf8.encodable user = true /\ Utf8.encodable password = true
      /\ (truthy ca_cert_path = true ->
          Utf8.encodable (path_of ca_cert_path) = true).
Proof.
  rewrite <- !quote_plus_Return_iff. unfold create_engine_with_url_params.
  rewrite params_shape. cbn [app quote_items].
  rewrite quote_plus_SSL, quote_plus_str_int. cbn [bind]. split.
  - intros [h H].
    destruct (quote_plus user []) as [quser|e]; cbn [bind] in H; [|discriminate].
    destruct (quote_plus password []) as [qpassword|e]; cbn [bind] in H;
      [|discriminate].
    split; [now eexists|]. split; [now eexists|].
    destruct ca_cert_path as [[|c path]|]; cbn [truthy path_of]; try discriminate.
    intros _. cbn [quote_items bind] in H.
    destruct (quote_plus (c :: path) []) as [q|e]; [now exists q | discriminate].
  - intros ([quser ->] & [qpassword ->] & Hc). cbn [bind].
    destruct ca_cert_path as [[|c path]|]; cbn [quote_items bind];
      try (eexists; reflexivity).
    destruct (Hc eq_refl) as [q Hq]. cbn [path_of] in Hq. rewrite Hq.
    eexists. reflexivity.
Qed.

(** *** print *)









(** *** test_connection *)








(** The exception classes: each one is a [BaseException], and the classes of
    [sqlalchemy.exc] are the [SQLAlchemyError]s. *)
Lemma issubclass_BaseException c : issubclass c BaseException = true.
Proof. destruct c; reflexivity. Qed.

Lemma issubclass_SQLAlchemyError c :
  issubclass c SQLAlchemyError = true <->
  In c [SQLAlchemyError; ArgumentError; NoSuchModuleError; PoolTimeoutError;
        StatementError; DBAPIError; InterfaceError; DatabaseError;
        OperationalError; ProgrammingError].
Proof.
  destruct c; cbn; split; intros H; try reflexivity; try discriminate;
    try tauto;
    repeat (destruct H as [H|H]; [discriminate|]); destruct H.
Qed.

End AppFacts.

(** * The specification, claim by claim *)

Import Py Urllib App PyFacts Utf8Facts UrllibFacts AppFacts.

(** ** Method A: the attribute list and its URL *)

(** C1. For every user, password, host, port, database, certificate path and
    timeout, [create_engine_with_dsn] assembles the attributes in this
    order: DATABASE, HOSTNAME, PORT, PROTOCOL=TCPIP, UID, PWD, Security=SSL,
    CONNECTTIMEOUT, then SSLServerCertificate when (and only when) a path was
    given that is not empty; it joins them with [;] and quotes the joined
    text for the URL. *)
Theorem dsn_attribute_order user password host port database ca_cert_path
    connect_timeout :
  let attrs :=
    [ lit "DATABASE=" ++ database;
      lit "HOSTNAME=" ++ host;
      lit "PORT=" ++ str_int port;
      lit "PROTOCOL=TCPIP";
      lit "UID=" ++ user;
      lit "PWD=" ++ password;
      lit "Security=SSL";
      lit "CONNECTTIMEOUT=" ++ str_int connect_timeout ]
    ++ match ca_cert_path with
       | Some (c :: path) => [lit "SSLServerCertificate=" ++ c :: path]
       | Some [] | None => []
       end in
  dsn_attrs user password host port database ca_cert_path connect_timeout = attrs
  /\ dsn user password host port database ca_cert_path connect_timeout
     = join (lit ";") attrs
  /\ join (lit ";") attrs
     = lit "DATABASE=" ++ database ++ lit ";HOSTNAME=" ++ host
       ++ lit ";PORT=" ++ str_int port ++ lit ";PROTOCOL=TCPIP;UID=" ++ user
       ++ lit ";PWD=" ++ password ++ lit ";Security=SSL;CONNECTTIMEOUT="
       ++ str_int connect_timeout
       ++ match ca_cert_path with
          | Some (c :: path) => lit ";SSLServerCertificate=" ++ c :: path
          | Some [] | None => []
          end
  /\ create_engine_with_dsn user password host port database ca_cert_path
       connect_timeout
     = (encoded_dsn <- quote_plus (join (lit ";") attrs) [] ;;
        Return (create_engine (lit "ibm_db_sa:///?dsn=" ++ encoded_dsn) 5 10 true)).
Proof.
  intros attrs.
  pose proof (dsn_attrs_shape user password host port database ca_cert_path
                connect_timeout) as Hattrs.
  fold attrs in Hattrs.
  assert (dsn user password host port database ca_cert_path connect_timeout
          = join (lit ";") attrs) as Hdsn by (unfold dsn; now rewrite Hattrs).
  repeat split.
  - exact Hattrs.
  - exact Hdsn.
  - rewrite <- Hdsn. apply dsn_flat.
  - unfold create_engine_with_dsn. now rewrite Hdsn.
Qed.

(** C2. The URL that [create_engine_with_dsn] builds is [ibm_db_sa:///?dsn=]
    followed by the whole joined attribute list quoted by [quote_plus] as
    one token: the URL has exactly one query parameter, named [dsn], and the
    token is made of unreserved characters, [%] and [+] only, so it holds no
    [;], [=], [&] or [@]. *)
Theorem dsn_url_single_token user password host port database ca_cert_path
    connect_timeout h :
  create_engine_with_dsn user password host port database ca_cert_path
    connect_timeout = Return h ->
  exists tok,
    quote_plus (dsn user password host port database ca_cert_path connect_timeout) []
      = Return tok
    /\ engine_url h = lit "ibm_db_sa:///?dsn=" ++ tok
    /\ query_params (engine_url h) = [(lit "dsn", tok)]
    /\ Forall (fun c => is_token_char c = true) tok
    /\ contains (chr ";") tok = false
    /\ contains (chr "=") tok = false
    /\ contains (chr "&") tok = false
    /\ contains (chr "@") tok = false.
Proof.
  intros H. apply create_engine_with_dsn_inv in H as (tok & Hq & ->).
  pose proof (quote_plus_token_chars _ _ Hq) as Htok.
  exists tok. cbn [engine_url create_engine].
  repeat split; try assumption; try (now apply token_char_absent).
  apply query_params_dsn. now apply token_char_absent.
Qed.

(** The sample inputs give a URL, and the theorem applies to it. *)
Lemma dsn_url_single_token_witness :
  create_engine_with_dsn sample_user sample_password sample_host 50000
    sample_database (Some sample_cert) 10
  = Return (create_engine sample_url_A_cert 5 10 true)
  /\ exists tok,
       quote_plus (dsn sample_user sample_password sample_host 50000
                     sample_database (Some sample_cert) 10) []
         = Return tok
       /\ sample_url_A_cert = lit "ibm_db_sa:///?dsn=" ++ tok
       /\ query_params sample_url_A_cert = [(lit "dsn", tok)]
       /\ Forall (fun c => is_token_char c = true) tok
       /\ contains (chr ";") tok = false
       /\ contains (chr "=") tok = false
       /\ contains (chr "&") tok = false
       /\ contains (chr "@") tok = false.
Proof.
  split; [reflexivity|].
  apply (dsn_url_single_token sample_user sample_password sample_host 50000
           sample_database (Some sample_cert) 10
           (create_engine sample_url_A_cert 5 10 true)).
  reflexivity.
Defined.

(** C3. Round trip: [unquote_plus] of the value of the [dsn] query parameter
    is the joined attribute list that was assembled, every value in it as it
    was given. *)
Theorem dsn_round_trip user password host port database ca_cert_path
    connect_timeout h :
  wf_str user -> wf_str password -> wf_str host -> wf_str database ->
  wf_path ca_cert_path ->
  create_engine_with_dsn user password host port database ca_cert_path
    connect_timeout = Return h ->
  exists tok,
    query_params (engine_url h) = [(lit "dsn", tok)]
    /\ unquote_plus tok
       = dsn user password host port database ca_cert_path connect_timeout
    /\ unquote_plus tok
       = lit "DATABASE=" ++ database ++ lit ";HOSTNAME=" ++ host
         ++ lit ";PORT=" ++ str_int port ++ lit ";PROTOCOL=TCPIP;UID=" ++ user
         ++ lit ";PWD=" ++ password ++ lit ";Security=SSL;CONNECTTIMEOUT="
         ++ str_int connect_timeout
         ++ match ca_cert_path with
            | Some (c :: path) => lit ";SSLServerCertificate=" ++ c :: path
            | Some [] | None => []
            end.
Proof.
  intros Hu Hp Hh Hd Hc H.
  apply create_engine_with_dsn_inv in H as (tok & Hq & ->).
  pose proof (quote_plus_token_chars _ _ Hq) as Htok.
  assert (unquote_plus tok
          = dsn user password host port database ca_cert_path connect_timeout)
    as Hrt.
  { apply unquote_plus_quote_plus; [|exact Hq]. now apply dsn_wf. }
  exists tok. cbn [engine_url create_engine]. repeat split.
  - apply query_params_dsn. now apply token_char_absent.
  - exact Hrt.
  - rewrite Hrt. apply dsn_flat.
Qed.

(** The round trip on the sample inputs: characters of up to four octets,
    delimiters, a space and a [%] come back. *)
Lemma dsn_round_trip_witness :
  (wf_str sample_user /\ wf_str sample_password /\ wf_str sample_host
   /\ wf_str sample_database /\ wf_path (Some sample_cert)
   /\ create_engine_with_dsn sample_user sample_password sample_host 50000
        sample_database (Some sample_cert) 10
      = Return (create_engine sample_url_A_cert 5 10 true))
  /\ exists tok,
       query_params sample_url_A_cert = [(lit "dsn", tok)]
       /\ unquote_plus tok
          = dsn sample_user sample_password sample_host 50000 sample_database
              (Some sample_cert) 10
       /\ unquote_plus tok
          = lit "DATABASE=" ++ sample_database ++ lit ";HOSTNAME=" ++ sample_host
            ++ lit ";PORT=" ++ str_int 50000 ++ lit ";PROTOCOL=TCPIP;UID="
            ++ sample_user ++ lit ";PWD=" ++ sample_password
            ++ lit ";Security=SSL;CONNECTTIMEOUT=" ++ str_int 10
            ++ lit ";SSLServerCertificate=" ++ sample_cert.
Proof.
  split; [repeat split; reflexivity|].
  apply (dsn_round_trip sample_user sample_password sample_host 50000
           sample_database (Some sample_cert) 10
           (create_engine sample_url_A_cert 5 10 true)); reflexivity.
Defined.

(** ** Method B: the URL with credentials *)



(** C9. For user [a b], password [p@ss!], host [db.example.com], port 50000,
    database [MYDB] and timeout 10, [create_engine_with_url_params] gives a
    URL whose credentials are [a+b] and [p%40ss%21]: no [@] and no [!] is
    left in the password. *)
Theorem url_params_example :
  create_engine_with_url_params (lit "a b") (lit "p@ss!") (lit "db.example.com")
    50000 (lit "MYDB") None 10 = Return (create_engine example_url 5 10 true)
  /\ credentials example_url = (lit "a+b", lit "p%40ss%21")
  /\ quote_plus (lit "a b") [] = Return (lit "a+b")
  /\ quote_plus (lit "p@ss!") [] = Return (lit "p%40ss%21")
  /\ contains (chr "@") (snd (credentials example_url)) = false
  /\ contains (chr "!") (snd (credentials example_url)) = false.
Proof. repeat split; reflexivity. Qed.

(** ** The certificate path *)

(** C5 as it is written fails for a path that is supplied but empty: the
    attribute list and the parameters have no SSLServerCertificate, and the
    name occurs in neither URL, nor in the decoded URL of method A. *)
Lemma supplied_empty_path_absent :
  let supplied := Some [] in
  has_attr SSLServerCertificate
    (dsn_attrs (lit "db2user") (lit "db2pwd") (lit "db2-prod.example.com") 50000
       (lit "MYDB") supplied 10) = false
  /\ has_param SSLServerCertificate (params supplied 10) = false
  /\ (exists h,
        create_engine_with_dsn (lit "db2user") (lit "db2pwd")
          (lit "db2-prod.example.com") 50000 (lit "MYDB") supplied 10 = Return h
        /\ occurs SSLServerCertificate (engine_url h) = false
        /\ occurs SSLServerCertificate (unquote_plus (engine_url h)) = false)
  /\ (exists h,
        create_engine_with_url_params (lit "db2user") (lit "db2pwd")
          (lit "db2-prod.example.com") 50000 (lit "MYDB") supplied 10 = Return h
        /\ occurs SSLServerCertificate (engine_url h) = false).
Proof.
  cbv zeta. split; [reflexivity|]. split; [reflexivity|]. split.
  - eexists. split; [reflexivity|]. split; vm_compute; reflexivity.
  - eexists. split; [reflexivity|]. vm_compute; reflexivity.
Qed.

(** C5, amended. With the certificate path omitted, neither builder adds an
    SSLServerCertificate entry: the attribute list and the parameters have no
    entry with that key, and both URLs end with the timeout. With a path that
    is not empty, both descriptors contain it: the attribute list ends with
    [SSLServerCertificate=<path>], the URL of method A with that attribute
    quoted, the URL of method B with
    [&SSLServerCertificate=<quote_plus(path)>]. *)
Theorem cert_attribute_presence user password host port database connect_timeout :
  (has_attr SSLServerCertificate
     (dsn_attrs user password host port database None connect_timeout) = false
   /\ has_param SSLServerCertificate (params None connect_timeout) = false
   /\ (forall h,
         create_engine_with_dsn user password host port database None
           connect_timeout = Return h ->
         exists front,
           engine_url h
           = front ++ lit "CONNECTTIMEOUT%3D" ++ str_int connect_timeout)
   /\ (forall h,
         create_engine_with_url_params user password host port database None
           connect_timeout = Return h ->
         exists front,
           engine_url h
           = front ++ lit "&connecttimeout=" ++ str_int connect_timeout))
  /\ forall c path,
       let ca_cert_path := Some (c :: path) in
       last (dsn_attrs user password host port database ca_cert_path connect_timeout) []
         = lit "SSLServerCertificate=" ++ c :: path
       /\ (exists front,
             dsn user password host port database ca_cert_path connect_timeout
             = front ++ lit ";SSLServerCertificate=" ++ c :: path)
       /\ (forall h,
             create_engine_with_dsn user password host port database
               ca_cert_path connect_timeout = Return h ->
             exists front q,
               quote_plus (c :: path) [] = Return q
               /\ engine_url h = front ++ lit "%3BSSLServerCertificate%3D" ++ q)
       /\ (forall h,
             create_engine_with_url_params user password host port database
               ca_cert_path connect_timeout = Return h ->
             exists front q,
               quote_plus (c :: path) [] = Return q
               /\ engine_url h = front ++ lit "&SSLServerCertificate=" ++ q).
Proof.
  split.
  - split; [reflexivity|]. split; [reflexivity|]. split.
    + intros h H.
      apply create_engine_with_dsn_explicit in H
        as (qdatabase & qhost & quser & qpassword & qcert & _ & _ & _ & _ & Hc & ->).
      apply Return_inj in Hc. subst qcert.
      exists (lit "ibm_db_sa:///?dsn=DATABASE%3D" ++ qdatabase
              ++ lit "%3BHOSTNAME%3D" ++ qhost ++ lit "%3BPORT%3D" ++ str_int port
              ++ lit "%3BPROTOCOL%3DTCPIP%3BUID%3D" ++ quser
              ++ lit "%3BPWD%3D" ++ qpassword ++ lit "%3BSecurity%3DSSL%3B").
      rewrite app_nil_r. repeat rewrite <- app_assoc. reflexivity.
    + intros h H.
      apply create_engine_with_url_params_inv in H
        as (quser & qpassword & qcert & _ & _ & -> & ->).
      exists (lit "ibm_db_sa://" ++ quser ++ lit ":" ++ qpassword ++ lit "@"
              ++ host ++ lit ":" ++ str_int port ++ lit "/" ++ database
              ++ lit "?security=SSL").
      cbn [engine_url create_engine]. unfold query_string. rewrite app_nil_r.
      repeat rewrite <- app_assoc. reflexivity.
  - intros c path ca_cert_path. split; [reflexivity|]. split; [|split].
    + exists (lit "DATABASE=" ++ database ++ lit ";HOSTNAME=" ++ host
              ++ lit ";PORT=" ++ str_int port ++ lit ";PROTOCOL=TCPIP;UID=" ++ user
              ++ lit ";PWD=" ++ password ++ lit ";Security=SSL;CONNECTTIMEOUT="
              ++ str_int connect_timeout).
      rewrite dsn_flat. unfold ca_cert_path. cbn [cert_suffix].
      repeat rewrite <- app_assoc. reflexivity.
    + intros h H.
      apply create_engine_with_dsn_explicit in H
        as (qdatabase & qhost & quser & qpassword & qcert & _ & _ & _ & _ & Hc & ->).
      unfold ca_cert_path in Hc. rewrite quote_plus_cert_suffix in Hc.
      destruct (quote_plus (c :: path) []) as [q|e]; cbn [bind] in Hc;
        [|discriminate].
      apply Return_inj in Hc. subst qcert.
      exists (lit "ibm_db_sa:///?dsn=DATABASE%3D" ++ qdatabase
              ++ lit "%3BHOSTNAME%3D" ++ qhost ++ lit "%3BPORT%3D" ++ str_int port
              ++ lit "%3BPROTOCOL%3DTCPIP%3BUID%3D" ++ quser
              ++ lit "%3BPWD%3D" ++ qpassword
              ++ lit "%3BSecurity%3DSSL%3BCONNECTTIMEOUT%3D"
              ++ str_int connect_timeout), q.
      split; [reflexivity|]. repeat rewrite <- app_assoc. reflexivity.
    + intros h H.
      apply create_engine_with_url_params_inv in H
        as (quser & qpassword & qcert & _ & _ & (q & -> & Hq) & ->).
      exists (lit "ibm_db_sa://" ++ quser ++ lit ":" ++ qpassword ++ lit "@"
              ++ host ++ lit ":" ++ str_int port ++ lit "/" ++ database
              ++ lit "?security=SSL&connecttimeout=" ++ str_int connect_timeout), q.
      split; [exact Hq|].
      cbn [engine_url create_engine]. unfold query_string.
      repeat rewrite <- app_assoc. reflexivity.
Qed.

(** The four URLs of the sample inputs, without and with the certificate. *)
Lemma cert_attribute_presence_witness :
  (create_engine_with_dsn sample_user sample_password sample_host 50000
     sample_database None 10 = Return (create_engine sample_url_A 5 10 true)
   /\ create_engine_with_url_params sample_user sample_password sample_host
        50000 sample_database None 10
      = Return (create_engine sample_url_B 5 10 true)
   /\ create_engine_with_dsn sample_user sample_password sample_host 50000
        sample_database (Some sample_cert) 10
      = Return (create_engine sample_url_A_cert 5 10 true)
   /\ create_engine_with_url_params sample_user sample_password sample_host
        50000 sample_database (Some sample_cert) 10
      = Return (create_engine sample_url_B_cert 5 10 true))
  /\ (exists front,
        sample_url_A = front ++ lit "CONNECTTIMEOUT%3D" ++ str_int 10)
  /\ (exists front,
        sample_url_B = front ++ lit "&connecttimeout=" ++ str_int 10)
  /\ (exists front q,
        quote_plus sample_cert [] = Return q
        /\ sample_url_A_cert = front ++ lit "%3BSSLServerCertificate%3D" ++ q)
  /\ (exists front q,
        quote_plus sample_cert [] = Return q
        /\ sample_url_B_cert = front ++ lit "&SSLServerCertificate=" ++ q).
Proof.
  destruct (cert_attribute_presence sample_user sample_password sample_host 50000
              sample_database 10) as [(_ & _ & HA & HB) Hcert].
  destruct (Hcert (chr "/") (lit "etc/ssl/my ca.pem"))
    as (_ & _ & HcertA & HcertB).
  split; [repeat split; reflexivity|]. split; [|split; [|split]].
  - exact (HA (create_engine sample_url_A 5 10 true) eq_refl).
  - exact (HB (create_engine sample_url_B 5 10 true) eq_refl).
  - exact (HcertA (create_engine sample_url_A_cert 5 10 true) eq_refl).
  - exact (HcertB (create_engine sample_url_B_cert 5 10 true) eq_refl).
Defined.

(** C10. An empty certificate path is treated as an omitted one: both
    builders return what they return without a path, and neither the
    attribute list nor the parameters have an SSLServerCertificate entry. *)
Theorem empty_path_as_omitted user password host port database connect_timeout :
  create_engine_with_dsn user password host port database (Some []) connect_timeout
  = create_engine_with_dsn user password host port database None connect_timeout
  /\ create_engine_with_url_params user password host port database (Some [])
       connect_timeout
     = create_engine_with_url_params user password host port database None
         connect_timeout
  /\ dsn_attrs user password host port database (Some []) connect_timeout
     = dsn_attrs user password host port database None connect_timeout
  /\ params (Some []) connect_timeout = params None connect_timeout
  /\ has_attr SSLServerCertificate
       (dsn_attrs user password host port database (Some []) connect_timeout) = false
  /\ has_param SSLServerCertificate (params (Some []) connect_timeout) = false.
Proof. repeat split; reflexivity. Qed.

(** ** Totality of method A *)

(** C8 as it is written fails on a password that holds a lone surrogate,
    as [os.environ] gives for a byte that is not UTF-8: no engine is made,
    [quote_plus] raises [UnicodeEncodeError]. *)
Lemma dsn_surrogate_raises :
  wf_str [0xDC80]
  /\ create_engine_with_dsn (lit "db2user") [0xDC80] (lit "db2-prod.example.com")
       50000 (lit "MYDB") None 10
     = Raise Utf8.surrogates_not_allowed
  /\ exn_class Utf8.surrogates_not_allowed = UnicodeEncodeError.
Proof. repeat split; reflexivity. Qed.

(** C8, amended. When no string parameter holds a surrogate,
    [create_engine_with_dsn] returns an engine and raises nothing, whatever
    the port, the timeout and the host are: nothing is validated, and host,
    port and timeout stand in the attribute list as they were given. *)
Theorem dsn_construction_total user password host port database ca_cert_path
    connect_timeout :
  Utf8.encodable user = true -> Utf8.encodable password = true ->
  Utf8.encodable host = true -> Utf8.encodable database = true ->
  Utf8.encodable (path_of ca_cert_path) = true ->
  exists h,
    create_engine_with_dsn user password host port database ca_cert_path
      connect_timeout = Return h
    /\ nth_error (dsn_attrs user password host port database ca_cert_path
                    connect_timeout) 1 = Some (lit "HOSTNAME=" ++ host)
    /\ nth_error (dsn_attrs user password host port database ca_cert_path
                    connect_timeout) 2 = Some (lit "PORT=" ++ str_int port)
    /\ nth_error (dsn_attrs user password host port database ca_cert_path
                    connect_timeout) 7
       = Some (lit "CONNECTTIMEOUT=" ++ str_int connect_timeout).
Proof.
  intros Hu Hp Hh Hd Hc.
  assert (exists h, create_engine_with_dsn user password host port database
                      ca_cert_path connect_timeout = Return h) as [h Hh'].
  { apply create_engine_with_dsn_Return_iff. rewrite dsn_encodable.
    rewrite Hu, Hp, Hh, Hd, Hc. now destruct (truthy ca_cert_path). }
  exists h. split; [exact Hh'|]. rewrite dsn_attrs_shape. repeat split.
Qed.

(** An empty host, a negative port and a timeout past any sensible range are
    taken as they are. *)
Lemma dsn_construction_total_witness :
  (Utf8.encodable sample_user = true /\ Utf8.encodable sample_password = true
   /\ Utf8.encodable [] = true /\ Utf8.encodable sample_database = true
   /\ Utf8.encodable (path_of None) = true)
  /\ exists h,
       create_engine_with_dsn sample_user sample_password [] (-1)
         sample_database None 700000 = Return h
       /\ nth_error (dsn_attrs sample_user sample_password [] (-1)
                       sample_database None 700000) 1
          = Some (lit "HOSTNAME=" ++ [])
       /\ nth_error (dsn_attrs sample_user sample_password [] (-1)
                       sample_database None 700000) 2
          = Some (lit "PORT=" ++ str_int (-1))
       /\ nth_error (dsn_attrs sample_user sample_password [] (-1)
                       sample_database None 700000) 7
          = Some (lit "CONNECTTIMEOUT=" ++ str_int 700000).
Proof.
  split; [repeat split; reflexivity|].
  apply (dsn_construction_total sample_user sample_password [] (-1)
           sample_database None 700000); reflexivity.
Defined.

(** ** test_connection *)







(** * Beyond the specification *)

(** ** Reading numbers *)

Module IntFacts.
Import Int.

Lemma uint_value_pos d acc :
  uint_value d (N.pos acc) = N.pos (Pos.of_uint_acc d acc).
Proof.
  revert acc. induction d; intros acc; cbn [uint_value Pos.of_uint_acc];
    try reflexivity.
  all: rewrite <- IHd; f_equal; lia.
Qed.

Lemma uint_value_0 d : uint_value d 0 = Pos.of_uint d.
Proof.
  induction d; cbn [uint_value Pos.of_uint]; try reflexivity; try exact IHd.
  all: rewrite <- uint_value_pos; reflexivity.
Qed.

Lemma uint_value_to_uint p : uint_value (Pos.to_uint p) 0 = N.pos p.
Proof. rewrite uint_value_0. apply Unsigned.of_to. Qed.


Lemma scan_digits_stop prev acc tail :
  prev <> chr "_" -> stops tail = true ->
  scan_digits prev acc tail = Some (acc, tail).
Proof.
  intros Hp Ht. apply N.eqb_neq in Hp. destruct tail as [|c tail]; cbn [scan_digits].
  - now rewrite Hp.
  - cbn [stops] in Ht. apply andb_true_iff in Ht as [Hu Hd].
    apply negb_true_iff in Hu. rewrite Hu.
    destruct (digit_value c); [discriminate|]. now rewrite Hp.
Qed.

(** The scan reads a numeral of the decimal printer to its end. *)
Lemma scan_digits_uint d prev acc tail :
  prev <> chr "_" -> stops tail = true ->
  scan_digits prev acc (lit (NilEmpty.string_of_uint d) ++ tail)
  = Some (uint_value d acc, tail).
Proof.
  revert prev acc. induction d; intros prev acc Hp Ht;
    cbn [NilEmpty.string_of_uint uint_value].
  1: now apply scan_digits_stop.
  all: unfold lit; cbn [list_ascii_of_string map app]; fold (lit (NilEmpty.string_of_uint d)).
  all: cbn [scan_digits].
  all: match goal with
       | |- context [N_of_ascii ?a =? chr "_"] =>
           change (N_of_ascii a =? chr "_") with false;
           change (digit_value (N_of_ascii a)) with (Some (N_of_ascii a - chr "0"))
       end.
  all: cbv iota; rewrite IHd by (try assumption; discriminate).
  all: match goal with
       | |- context [N_of_ascii ?a - chr "0"] =>
           let v := eval vm_compute in (N_of_ascii a - chr "0") in
           change (N_of_ascii a - chr "0") with v
       end.
  all: rewrite ?N.add_0_r; reflexivity.
Qed.

Lemma skip_spaces_app ws s :
  forallb is_space ws = true -> skip_spaces (ws ++ s) = skip_spaces s.
Proof.
  induction ws as [|c ws IH]; [reflexivity|]. cbn [forallb app skip_spaces].
  intros H. apply andb_true_iff in H as [Hc Hws]. rewrite Hc. now apply IH.
Qed.

Lemma skip_spaces_all ws : forallb is_space ws = true -> skip_spaces ws = [].
Proof.
  intros H. rewrite <- (app_nil_r ws). now rewrite skip_spaces_app.
Qed.

Lemma spaces_stop ws : forallb is_space ws = true -> stops ws = true.
Proof.
  destruct ws as [|c ws]; [reflexivity|]. cbn [forallb stops].
  intros H. apply andb_true_iff in H as [Hc _].
  unfold is_space in Hc. unfold digit_value.
  destruct (N.eqb_spec c (chr "_")) as [->|_]; [discriminate|].
  destruct ((chr "0" <=? c) && (c <=? chr "9")) eqn:E; [|reflexivity].
  apply andb_true_iff in E as [E1 E2]. apply N.leb_le in E1, E2.
  change (chr "0") with 48 in E1. change (chr "9") with 57 in E2.
  apply orb_true_iff in Hc as [Hc|Hc].
  - apply andb_true_iff in Hc as [_ Hc]. apply N.leb_le in Hc. lia.
  - apply N.eqb_eq in Hc. lia.
Qed.

Lemma spaces_ascii ws : forallb is_space ws = true -> forallb (fun c => c <? 128) ws = true.
Proof.
  intros H. rewrite forallb_forall in *. intros c Hc. specialize (H c Hc).
  unfold is_space in H. apply N.ltb_lt.
  apply orb_true_iff in H as [H|H].
  - apply andb_true_iff in H as [_ H]. apply N.leb_le in H. lia.
  - apply N.eqb_eq in H. lia.
Qed.

Lemma str_int_ascii n : forallb (fun c => c <? 128) (str_int n) = true.
Proof.
  pose proof (str_int_safe n) as H. rewrite forallb_forall in *.
  intros c Hc. specialize (H c Hc). apply contains_In in H.
  revert H. generalize c. apply Forall_forall.
  apply (Forall_forallb (fun c => c <? 128)). reflexivity.
Qed.

(** The numeral of a positive number: a first digit, and the scan reads the
    number. *)
Lemma long_from_digits d ws :
  d <> Decimal.Nil -> forallb is_space ws = true ->
  exists c rest,
    lit (NilEmpty.string_of_uint d) = c :: rest
    /\ is_space c = false /\ (c =? chr "+") = false /\ (c =? chr "-") = false
    /\ (c =? chr "_") = false
    /\ scan_digits 0 0 (c :: rest ++ ws) = Some (uint_value d 0, ws).
Proof.
  intros Hd Hws.
  pose proof (scan_digits_uint d 0 0 ws) as Hscan.
  destruct d; [congruence| ..];
    unfold lit in *; cbn [NilEmpty.string_of_uint list_ascii_of_string map] in *;
    eexists; eexists; (split; [reflexivity|]);
    repeat (split; [reflexivity|]);
    (apply Hscan; [discriminate | now apply spaces_stop]).
Qed.

(** [int] reads back what [str] printed, white space around it or not. *)
Lemma int_str_str_int n ws1 ws2 :
  forallb is_space ws1 = true -> forallb is_space ws2 = true ->
  int_str (ws1 ++ str_int n ++ ws2) = Return n.
Proof.
  intros H1 H2. unfold int_str, transform.
  rewrite !forallb_app, (spaces_ascii ws1 H1), (spaces_ascii ws2 H2), str_int_ascii.
  cbn [andb]. unfold long_from_string. rewrite skip_spaces_app by exact H1.
  unfold str_int, NilZero.string_of_int, NilZero.string_of_uint.
  assert (forall d, d <> Decimal.Nil ->
            match d with
            | Decimal.Nil => "0"%string
            | _ => NilEmpty.string_of_uint d
            end = NilEmpty.string_of_uint d) as Hnil
    by (intros d Hd; destruct d; congruence).
  assert (forall p, Pos.to_uint p <> Decimal.Nil) as Hp
    by (intros p; apply Unsigned.to_uint_nonnil).
  destruct n as [|p|p]; cbn [Z.to_int].
  - destruct (long_from_digits (Decimal.D0 Decimal.Nil) ws2) as
      (c & rest & Hl & Hs & Hplus & Hminus & Hu & Hscan); [discriminate | exact H2 |].
    rewrite Hl. cbn [app skip_spaces]. rewrite Hs, Hplus, Hminus, Hu, Hscan.
    cbn [List.length]. rewrite length_app.
    replace (List.length ws2 =? S (List.length rest + List.length ws2))%nat with false
      by (symmetry; apply Nat.eqb_neq; lia).
    rewrite skip_spaces_all by exact H2. reflexivity.
  - rewrite Hnil by apply Hp.
    destruct (long_from_digits (Pos.to_uint p) ws2) as
      (c & rest & Hl & Hs & Hplus & Hminus & Hu & Hscan); [apply Hp | exact H2 |].
    rewrite Hl. cbn [app skip_spaces]. rewrite Hs, Hplus, Hminus, Hu, Hscan.
    cbn [List.length]. rewrite length_app.
    replace (List.length ws2 =? S (List.length rest + List.length ws2))%nat with false
      by (symmetry; apply Nat.eqb_neq; lia).
    rewrite skip_spaces_all by exact H2. now rewrite uint_value_to_uint.
  - rewrite Hnil by apply Hp.
    destruct (long_from_digits (Pos.to_uint p) ws2) as
      (c & rest & Hl & Hs & Hplus & Hminus & Hu & Hscan); [apply Hp | exact H2 |].
    unfold lit. cbn [list_ascii_of_string map app skip_spaces].
    fold (lit (NilEmpty.string_of_uint (Pos.to_uint p))). rewrite Hl.
    change (is_space (N_of_ascii "-")) with false. cbv iota.
    change (N_of_ascii "-" =? chr "+") with false.
    change (N_of_ascii "-" =? chr "-") with true. cbv beta iota zeta.
    cbn [app]. rewrite Hu, Hscan.
    cbn [List.length]. rewrite length_app.
    replace (List.length ws2 =? S (List.length rest + List.length ws2))%nat with false
      by (symmetry; apply Nat.eqb_neq; lia).
    rewrite skip_spaces_all by exact H2. now rewrite uint_value_to_uint.
Qed.


Lemma digit_value_decimal c d : digit_value c = Some d -> is_decimal c = true.
Proof.
  unfold digit_value, is_decimal, unicode_decimal.
  destruct ((chr "0" <=? c) && (c <=? chr "9")) eqn:E; [|discriminate].
  intros _. cbn [DECIMAL_ZEROS find].
  change (chr "0") with 0x30 in E. change (chr "9") with (0x30 + 9) in E.
  now rewrite E.
Qed.

Lemma transform_chars_no_digit s :
  forallb (fun c => negb (is_decimal c)) s = true ->
  Forall (fun c => digit_value c = None) (transform_chars s).
Proof.
  induction s as [|c s IH]; cbn [forallb transform_chars]; [constructor|].
  intros H. apply andb_true_iff in H as [Hc Hs]. apply negb_true_iff in Hc.
  assert (digit_value c = None) as Hd.
  { destruct (digit_value c) eqn:E; [|reflexivity].
    apply digit_value_decimal in E. congruence. }
  destruct (c <? 127); [constructor; auto|].
  destruct (unicode_space c); [constructor; [reflexivity | auto]|].
  unfold is_decimal in Hc. destruct (unicode_decimal c); [discriminate|].
  repeat constructor.
Qed.

Lemma transform_no_digit s :
  forallb (fun c => negb (is_decimal c)) s = true ->
  Forall (fun c => digit_value c = None) (transform s).
Proof.
  intros H. unfold transform. destruct (forallb (fun ch => ch <? 128) s).
  - apply Forall_forall. intros c Hc. pose proof (proj1 (forallb_forall _ _) H) as H'. clear H. rename H' into H.
    specialize (H c Hc). apply negb_true_iff in H.
    destruct (digit_value c) eqn:E; [|reflexivity].
    apply digit_value_decimal in E. congruence.
  - now apply transform_chars_no_digit.
Qed.

Lemma skip_spaces_Forall (P : N -> Prop) s : Forall P s -> Forall P (skip_spaces s).
Proof.
  induction 1 as [|c s Hc Hs IH]; cbn [skip_spaces]; [constructor|].
  destruct (is_space c); [exact IH | now constructor].
Qed.

Lemma long_from_string_no_digit s :
  Forall (fun c => digit_value c = None) s -> long_from_string s = Raise invalid_literal.
Proof.
  intros H. unfold long_from_string.
  pose proof (skip_spaces_Forall _ s H) as H1.
  destruct (skip_spaces s) as [|c s1]; [reflexivity|].
  assert (forall negative s2,
            Forall (fun c => digit_value c = None) s2 ->
            match s2 with
            | [] => Raise invalid_literal
            | c :: _ =>
                if c =? chr "_" then Raise invalid_literal else
                match scan_digits 0 0 s2 with
                | None => Raise invalid_literal
                | Some (value, rest) =>
                    if (List.length rest =? List.length s2)%nat
                    then Raise invalid_literal
                    else match skip_spaces rest with
                         | [] => Return (if negative : bool then (- Z.of_N value)%Z
                                         else Z.of_N value)
                         | _ :: _ => Raise invalid_literal
                         end
                end
            end = Raise invalid_literal) as Hbody.
  { intros negative s2 H2. destruct H2 as [|c2 s2 Hc2 H2]; [reflexivity|].
    destruct (c2 =? chr "_") eqn:Eu; [reflexivity|].
    cbn [scan_digits]. rewrite Eu, Hc2. cbn. now rewrite Nat.eqb_refl. }
  inversion H1 as [|? ? Hc Hs1]; subst.
  destruct (c =? chr "+"); [exact (Hbody false _ Hs1)|].
  destruct (c =? chr "-"); [exact (Hbody true _ Hs1) | exact (Hbody false _ H1)].
Qed.

(** Text without a digit is refused: the empty string and white space among
    it. *)
Lemma int_str_no_digit s :
  forallb (fun c => negb (is_decimal c)) s = true -> int_str s = Raise invalid_literal.
Proof. intros H. apply long_from_string_no_digit. now apply transform_no_digit. Qed.

(** [int] raises nothing but its [ValueError]. *)
Lemma int_str_Raise s e : int_str s = Raise e -> e = invalid_literal.
Proof.
  unfold int_str, long_from_string. generalize (transform s). intros t.
  destruct (skip_spaces t) as [|c s1].
  - now intros [= <-].
  - assert (forall negative s2,
              match s2 with
              | [] => Raise invalid_literal
              | c :: _ =>
                  if c =? chr "_" then Raise invalid_literal else
                  match scan_digits 0 0 s2 with
                  | None => Raise invalid_literal
                  | Some (value, rest) =>
                      if (List.length rest =? List.length s2)%nat
                      then Raise invalid_literal
                      else match skip_spaces rest with
                           | [] => Return (if negative : bool then (- Z.of_N value)%Z
                                           else Z.of_N value)
                           | _ :: _ => Raise invalid_literal
                           end
                  end
              end = Raise e -> e = invalid_literal) as Hbody.
    { intros negative s2. destruct s2 as [|c2 s2]; [now intros [= <-]|].
      destruct (c2 =? chr "_"); [now intros [= <-]|].
      destruct (scan_digits 0 0 (c2 :: s2)) as [[value rest]|]; [|now intros [= <-]].
      destruct (List.length rest =? List.length (c2 :: s2))%nat; [now intros [= <-]|].
      destruct (skip_spaces rest); [discriminate | now intros [= <-]]. }
    destruct (c =? chr "+"); [exact (Hbody false s1)|].
    destruct (c =? chr "-"); [exact (Hbody true s1) | exact (Hbody false (c :: s1))].
Qed.
End IntFacts.

(** ** Cutting text at a separator *)

Module CutFacts.

Lemma split_app_sep sep p s :
  contains sep p = false -> split sep (p ++ sep :: s) = p :: split sep s.
Proof.
  induction p as [|c p IH]; intros H.
  - apply split_cons_sep.
  - apply contains_false_cons in H as [Hc Hp]. cbn [app].
    rewrite split_cons_other by congruence. now rewrite (IH Hp).
Qed.

(** Cutting a joined list gives the list back when no part holds the
    separator. *)
Lemma split_join sep l :
  l <> [] -> Forall (fun p => contains sep p = false) l ->
  split sep (join [sep] l) = l.
Proof.
  induction l as [|p l IH]; [congruence|]. intros _ H.
  inversion H as [|? ? Hp Hl]; subst. destruct l as [|q l].
  - cbn [join]. now apply split_no_sep.
  - change (join [sep] (p :: q :: l)) with (p ++ sep :: join [sep] (q :: l)).
    rewrite split_app_sep by exact Hp. f_equal. apply IH; [discriminate | exact Hl].
Qed.

(** No piece of a cut holds the separator. *)
Lemma split_pieces sep s : Forall (fun p => contains sep p = false) (split sep s).
Proof.
  induction s as [|c s IH]; [repeat constructor|].
  destruct (N.eq_dec c sep) as [->|Hc].
  - rewrite split_cons_sep. now constructor.
  - rewrite split_cons_other by exact Hc.
    pose proof (split_nonempty sep s) as Hne.
    destruct (split sep s) as [|p ps]; [congruence|].
    inversion IH; subst. cbn [hd tl]. constructor; [|assumption].
    apply contains_false_cons. split; [congruence | assumption].
Qed.

Lemma partition_app_sep sep p s :
  contains sep p = false -> partition sep (p ++ sep :: s) = (p, Some s).
Proof.
  induction p as [|c p IH]; intros H; cbn [app partition].
  - now rewrite N.eqb_refl.
  - apply contains_false_cons in H as [Hc Hp].
    replace (c =? sep) with false by (symmetry; apply N.eqb_neq; congruence).
    now rewrite (IH Hp).
Qed.

Lemma partition_no_sep sep p :
  contains sep p = false -> partition sep p = (p, None).
Proof.
  induction p as [|c p IH]; intros H; cbn [partition]; [reflexivity|].
  apply contains_false_cons in H as [Hc Hp].
  replace (c =? sep) with false by (symmetry; apply N.eqb_neq; congruence).
  now rewrite (IH Hp).
Qed.

(** The decimal text of a number holds none of the delimiters. *)
Lemma str_int_token n : Forall (fun c => is_token_char c = true) (str_int n).
Proof. apply (quote_plus_token_chars (str_int n)). apply quote_plus_str_int. Qed.

Lemma str_int_absent c n : is_token_char c = false -> contains c (str_int n) = false.
Proof. intros H. apply token_char_absent; [exact H | apply str_int_token]. Qed.

(** What [quote_plus] does depends on the surrogates of the text alone. *)
Lemma quote_plus_outcome s :
  (Utf8.encodable s = true /\ exists q, quote_plus s [] = Return q)
  \/ (Utf8.encodable s = false
      /\ quote_plus s [] = Raise Utf8.surrogates_not_allowed).
Proof.
  destruct (quote_plus s []) as [q|e] eqn:E.
  - left. split; [|now exists q]. apply quote_plus_Return_iff. now exists q.
  - right. rewrite (quote_plus_Raise s e E). split; [|reflexivity].
    destruct (Utf8.encodable s) eqn:Henc; [|reflexivity].
    apply quote_plus_Return_iff in Henc as [q Hq]. congruence.
Qed.

End CutFacts.

(** ** Method A beyond the specification *)

Module DsnFacts.
Import CutFacts.

Lemma lit_semicolon : lit ";" = [chr ";"].
Proof. reflexivity. Qed.

(** The attributes hold no [;] exactly when the values hold none. *)
Lemma dsn_attrs_plain user password host port database ca_cert_path
    connect_timeout :
  Forall (fun p => contains (chr ";") p = false)
         (dsn_attrs user password host port database ca_cert_path connect_timeout)
  <-> contains (chr ";") database = false /\ contains (chr ";") host = false
      /\ contains (chr ";") user = false /\ contains (chr ";") password = false
      /\ (truthy ca_cert_path = true ->
          contains (chr ";") (path_of ca_cert_path) = false).
Proof.
  rewrite dsn_attrs_shape.
  assert (contains (chr ";") (str_int port) = false) as Hport
    by now apply str_int_absent.
  assert (contains (chr ";") (str_int connect_timeout) = false) as Htime
    by now apply str_int_absent.
  split.
  - intros H. apply Forall_app in H as [H Hcert].
    cbv beta in H.
    apply Forall_cons_iff in H as [Hd H]. apply Forall_cons_iff in H as [Hh H].
    apply Forall_cons_iff in H as [_ H]. apply Forall_cons_iff in H as [_ H].
    apply Forall_cons_iff in H as [Hu H]. apply Forall_cons_iff in H as [Hp _].
    rewrite contains_app in Hd, Hh, Hu, Hp.
    apply orb_false_iff in Hd as [_ Hd]. apply orb_false_iff in Hh as [_ Hh].
    apply orb_false_iff in Hu as [_ Hu]. apply orb_false_iff in Hp as [_ Hp].
    do 4 (split; [assumption|]).
    intros Ht. destruct ca_cert_path as [[|c path]|]; try discriminate.
    apply Forall_cons_iff in Hcert as [Hc _].
    rewrite contains_app in Hc. now apply orb_false_iff in Hc as [_ Hc].
  - intros (Hd & Hh & Hu & Hp & Hc). apply Forall_app. split.
    + repeat constructor; rewrite ?contains_app, ?Hd, ?Hh, ?Hu, ?Hp, ?Hport, ?Htime;
        reflexivity.
    + destruct ca_cert_path as [[|c path]|]; constructor; [|constructor].
      rewrite contains_app. cbn [path_of] in Hc. now rewrite (Hc eq_refl).
Qed.

Lemma dsn_attrs_nonempty user password host port database ca_cert_path
    connect_timeout :
  dsn_attrs user password host port database ca_cert_path connect_timeout <> [].
Proof. rewrite dsn_attrs_shape. discriminate. Qed.

Lemma plain_spec s :
  plain s = true <-> wf_str s /\ contains (chr ";") s = false.
Proof.
  unfold plain, wf_str. rewrite andb_true_iff, negb_true_iff. reflexivity.
Qed.

Lemma plain_args_spec user password host database ca_cert_path :
  plain_args user password host database ca_cert_path = true ->
  (wf_str user /\ wf_str password /\ wf_str host /\ wf_str database
   /\ wf_path ca_cert_path)
  /\ contains (chr ";") database = false /\ contains (chr ";") host = false
  /\ contains (chr ";") user = false /\ contains (chr ";") password = false
  /\ contains (chr ";") (path_of ca_cert_path) = false.
Proof.
  unfold plain_args, wf_path. rewrite !andb_true_iff, !plain_spec. tauto.
Qed.

(** Cutting the joined text at each [;] gives the attributes back when no
    value holds one. *)
Lemma dsn_split_plain user password host port database ca_cert_path
    connect_timeout :
  contains (chr ";") database = false -> contains (chr ";") host = false ->
  contains (chr ";") user = false -> contains (chr ";") password = false ->
  (truthy ca_cert_path = true ->
   contains (chr ";") (path_of ca_cert_path) = false) ->
  split (chr ";") (dsn user password host port database ca_cert_path connect_timeout)
  = dsn_attrs user password host port database ca_cert_path connect_timeout.
Proof.
  intros Hd Hh Hu Hp Hc. unfold dsn. rewrite lit_semicolon.
  apply split_join; [apply dsn_attrs_nonempty|]. now apply dsn_attrs_plain.
Qed.

Lemma cons_inj {A : Type} (a b : A) l l' : a :: l = b :: l' -> a = b /\ l = l'.
Proof. intros H. split; congruence. Qed.

End DsnFacts.

Import CutFacts DsnFacts.

(** X1. For a port and a timeout within the digit limit of [str], method A
    fails exactly when one of the texts that go into the attribute list
    holds a surrogate (a certificate path only when it is used), and then
    with the [UnicodeEncodeError] of [quote_plus]. *)
Theorem dsn_raises_iff_surrogate user password host port database ca_cert_path
    connect_timeout e :
  within_digit_limit port = true ->
  within_digit_limit connect_timeout = true ->
  create_engine_with_dsn user password host port database ca_cert_path
    connect_timeout = Raise e
  <-> e = Utf8.surrogates_not_allowed
      /\ exn_class e = UnicodeEncodeError
      /\ (Utf8.encodable database = false \/ Utf8.encodable host = false
          \/ Utf8.encodable user = false \/ Utf8.encodable password = false
          \/ (truthy ca_cert_path = true
              /\ Utf8.encodable (path_of ca_cert_path) = false)).
Proof.
  intros _ _.
  pose proof (create_engine_with_dsn_Return_iff user password host port database
                ca_cert_path connect_timeout) as Hret.
  rewrite dsn_encodable in Hret.
  split.
  - intros H.
    pose proof (create_engine_with_dsn_Raise _ _ _ _ _ _ _ _ H) as ->.
    split; [reflexivity|]. split; [reflexivity|].
    destruct (Utf8.encodable database); [|now left].
    destruct (Utf8.encodable host); [|now right; left].
    destruct (Utf8.encodable user); [|now right; right; left].
    destruct (Utf8.encodable password); [|now right; right; right; left].
    destruct (truthy ca_cert_path).
    + destruct (Utf8.encodable (path_of ca_cert_path)); [|now repeat right].
      destruct (proj2 Hret eq_refl) as [h Hh]. congruence.
    + destruct (proj2 Hret eq_refl) as [h Hh]. congruence.
  - intros (-> & _ & Hbad).
    destruct (create_engine_with_dsn user password host port database
                ca_cert_path connect_timeout) as [h|e'] eqn:E.
    + assert (Utf8.encodable database && Utf8.encodable host
              && Utf8.encodable user && Utf8.encodable password
              && (if truthy ca_cert_path
                  then Utf8.encodable (path_of ca_cert_path) else true) = true)
        as Hall by (apply Hret; now exists h).
      repeat (apply andb_true_iff in Hall as [Hall ?]).
      destruct Hbad as [Hb|[Hb|[Hb|[Hb|[Ht Hb]]]]]; try congruence.
      rewrite Ht in *. congruence.
    + now rewrite (create_engine_with_dsn_Raise _ _ _ _ _ _ _ _ E).
Qed.

(** The default port and timeout, a password with a lone surrogate. *)
Lemma dsn_raises_iff_surrogate_witness :
  (within_digit_limit 50000 = true /\ within_digit_limit 10 = true)
  /\ (create_engine_with_dsn sample_user [0xDC80] sample_host 50000
        sample_database None 10 = Raise Utf8.surrogates_not_allowed
      <-> Utf8.surrogates_not_allowed = Utf8.surrogates_not_allowed
          /\ exn_class Utf8.surrogates_not_allowed = UnicodeEncodeError
          /\ (Utf8.encodable sample_database = false
              \/ Utf8.encodable sample_host = false
              \/ Utf8.encodable sample_user = false
              \/ Utf8.encodable [0xDC80] = false
              \/ (truthy None = true
                  /\ Utf8.encodable (path_of None) = false))).
Proof.
  split; [split; reflexivity|].
  apply (dsn_raises_iff_surrogate sample_user [0xDC80] sample_host 50000
           sample_database None 10 Utf8.surrogates_not_allowed); reflexivity.
Defined.

(** X2. Cutting the joined text of method A at each [;] gives the attribute list
    back exactly when no value holds a [;]: a value with a [;] in it reads as
    more than one attribute. *)
Theorem dsn_split_iff_plain user password host port database ca_cert_path
    connect_timeout :
  split (chr ";") (dsn user password host port database ca_cert_path connect_timeout)
  = dsn_attrs user password host port database ca_cert_path connect_timeout
  <-> contains (chr ";") database = false /\ contains (chr ";") host = false
      /\ contains (chr ";") user = false /\ contains (chr ";") password = false
      /\ (truthy ca_cert_path = true ->
          contains (chr ";") (path_of ca_cert_path) = false).
Proof.
  rewrite <- dsn_attrs_plain. unfold dsn. rewrite lit_semicolon. split.
  - intros H. rewrite <- H. apply split_pieces.
  - intros H. apply split_join; [apply dsn_attrs_nonempty | exact H].
Qed.

(** X3. Two calls of method A with plain values that give the same engine were
    given the same values: the URL tells user, password, host, port, database
    and timeout, and whether a certificate path was used and which. *)
Theorem dsn_url_injective user password host port database ca_cert_path
    connect_timeout user' password' host' port' database' ca_cert_path'
    connect_timeout' h :
  plain_args user password host database ca_cert_path = true ->
  plain_args user' password' host' database' ca_cert_path' = true ->
  create_engine_with_dsn user password host port database ca_cert_path
    connect_timeout = Return h ->
  create_engine_with_dsn user' password' host' port' database' ca_cert_path'
    connect_timeout' = Return h ->
  user = user' /\ password = password' /\ host = host' /\ port = port'
  /\ database = database' /\ connect_timeout = connect_timeout'
  /\ truthy ca_cert_path = truthy ca_cert_path'
  /\ (truthy ca_cert_path = true -> path_of ca_cert_path = path_of ca_cert_path').
Proof.
  intros Hp Hp' H H'.
  apply plain_args_spec in Hp
    as ((Wu & Wp & Wh & Wd & Wc) & Pd & Ph & Pu & Pp & Pc).
  apply plain_args_spec in Hp'
    as ((Wu' & Wp' & Wh' & Wd' & Wc') & Pd' & Ph' & Pu' & Pp' & Pc').
  apply create_engine_with_dsn_inv in H as (tok & Htok & ->).
  apply create_engine_with_dsn_inv in H' as (tok' & Htok' & H').
  apply (f_equal engine_url) in H'. cbn [engine_url create_engine] in H'.
  apply app_inv_head in H'. subst tok'.
  assert (dsn user password host port database ca_cert_path connect_timeout
          = dsn user' password' host' port' database' ca_cert_path' connect_timeout')
    as Hdsn.
  { rewrite <- (unquote_plus_quote_plus _ tok (dsn_wf _ _ _ _ _ _ _ Wu Wp Wh Wd Wc) Htok).
    apply (unquote_plus_quote_plus _ tok (dsn_wf _ _ _ _ _ _ _ Wu' Wp' Wh' Wd' Wc') Htok'). }
  apply (f_equal (split (chr ";"))) in Hdsn.
  rewrite !dsn_split_plain in Hdsn by auto.
  rewrite !dsn_attrs_shape in Hdsn. cbn [app] in Hdsn.
  apply cons_inj in Hdsn as [Ed Hdsn]. apply cons_inj in Hdsn as [Eh Hdsn].
  apply cons_inj in Hdsn as [Eport Hdsn]. apply cons_inj in Hdsn as [_ Hdsn].
  apply cons_inj in Hdsn as [Eu Hdsn]. apply cons_inj in Hdsn as [Ep Hdsn].
  apply cons_inj in Hdsn as [_ Hdsn]. apply cons_inj in Hdsn as [Etime Ecert].
  apply app_inv_head in Ed, Eh, Eport, Eu, Ep, Etime.
  apply str_int_inj in Eport, Etime.
  repeat (split; [assumption|]).
  destruct ca_cert_path as [[|c path]|], ca_cert_path' as [[|c' path']|];
    try discriminate Ecert; cbn [truthy path_of]; split; try reflexivity;
    try discriminate.
  intros _. apply cons_inj in Ecert as [Ecert _].
  now apply app_inv_head in Ecert.
Qed.

(** The sample user and host with a password that holds no [;]: a path left
    out and an empty path give the same engine, and count as the same. *)
Lemma dsn_url_injective_witness :
  (plain_args sample_user plain_password sample_host sample_database None = true
   /\ plain_args sample_user plain_password sample_host sample_database (Some [])
      = true
   /\ create_engine_with_dsn sample_user plain_password sample_host 50000
        sample_database None 10
      = Return (create_engine plain_url_A 5 10 true)
   /\ create_engine_with_dsn sample_user plain_password sample_host 50000
        sample_database (Some []) 10
      = Return (create_engine plain_url_A 5 10 true))
  /\ sample_user = sample_user /\ plain_password = plain_password
  /\ sample_host = sample_host /\ 50000%Z = 50000%Z
  /\ sample_database = sample_database /\ 10%Z = 10%Z
  /\ truthy None = truthy (Some [])
  /\ (truthy None = true -> path_of None = path_of (Some [])).
Proof.
  split; [repeat split; reflexivity|].
  apply (dsn_url_injective sample_user plain_password sample_host 50000
           sample_database None 10
           sample_user plain_password sample_host 50000
           sample_database (Some []) 10 (create_engine plain_url_A 5 10 true));
    reflexivity.
Defined.

(** X4. With a [;] in a value, method A is not injective: a [;PWD=] at the
    end of the user or at the start of the password gives the same URL, so
    the URL does not tell where the user ends and the password starts. *)
Theorem dsn_credentials_collide u p q host port database ca_cert_path
    connect_timeout :
  create_engine_with_dsn (u ++ lit ";PWD=" ++ p) q host port database
    ca_cert_path connect_timeout
  = create_engine_with_dsn u (p ++ lit ";PWD=" ++ q) host port database
      ca_cert_path connect_timeout.
Proof.
  unfold create_engine_with_dsn. rewrite !dsn_flat.
  repeat rewrite <- app_assoc. reflexivity.
Qed.

(** ** Method B beyond the specification *)

Module UrlParamsFacts.
Import CutFacts.

(** A token of [quote_plus] holds no delimiter of the URL. *)
Lemma quote_plus_absent c s q :
  is_token_char c = false -> quote_plus s [] = Return q -> contains c q = false.
Proof.
  intros Hc Hq. apply token_char_absent; [exact Hc|].
  now apply (quote_plus_token_chars s).
Qed.

(** The query string is its pieces joined by [&]. *)
Lemma query_string_join connect_timeout qcert :
  query_string connect_timeout qcert
  = join [chr "&"]
      ([ lit "security=SSL"; lit "connecttimeout=" ++ str_int connect_timeout ]
       ++ match qcert with
          | Some q => [lit "SSLServerCertificate=" ++ q]
          | None => []
          end).
Proof.
  unfold query_string. destruct qcert as [q|]; cbn [app join].
  - repeat rewrite <- app_assoc. reflexivity.
  - rewrite app_nil_r. repeat rewrite <- app_assoc. reflexivity.
Qed.

(** What [quoted_cert] says, as an equation. *)
Lemma quoted_cert_truthy ca_cert_path qcert :
  quoted_cert ca_cert_path qcert ->
  match qcert with
  | Some q => truthy ca_cert_path = true
              /\ quote_plus (path_of ca_cert_path) [] = Return q
  | None => truthy ca_cert_path = false
  end.
Proof.
  destruct ca_cert_path as [[|c path]|]; cbn [quoted_cert].
  - now intros ->.
  - intros (q & -> & Hq). now split.
  - now intros ->.
Qed.

(** [unquote_plus] leaves the decimal text of a number as it is. *)
Lemma unquote_plus_str_int n : unquote_plus (str_int n) = str_int n.
Proof.
  apply unquote_plus_quote_plus; [apply str_int_wf | apply quote_plus_str_int].
Qed.

Lemma no_query_mark_spec s :
  no_query_mark s = true ->
  contains (chr "?") s = false /\ contains (chr "#") s = false.
Proof.
  unfold no_query_mark. rewrite andb_true_iff, !negb_true_iff. tauto.
Qed.

(** Method B raises nothing but the [UnicodeEncodeError] of [quote_plus]. *)
Lemma create_engine_with_url_params_Raise user password host port database
    ca_cert_path connect_timeout e :
  create_engine_with_url_params user password host port database ca_cert_path
    connect_timeout = Raise e ->
  e = Utf8.surrogates_not_allowed.
Proof.
  unfold create_engine_with_url_params.
  destruct (quote_plus user []) as [quser|eu] eqn:Hu; cbn [bind];
    [|intros [= <-]; now apply (quote_plus_Raise user)].
  destruct (quote_plus password []) as [qpassword|ep] eqn:Hp; cbn [bind];
    [|intros [= <-]; now apply (quote_plus_Raise password)].
  rewrite params_shape. cbn [app quote_items].
  rewrite quote_plus_SSL, quote_plus_str_int. cbn [bind].
  destruct ca_cert_path as [[|c path]|]; cbn [quote_items bind]; try discriminate.
  destruct (quote_plus (c :: path) []) as [q|ec] eqn:Hc; cbn [bind];
    [discriminate|].
  intros [= <-]. now apply (quote_plus_Raise (c :: path)).
Qed.

End UrlParamsFacts.

Import UrlParamsFacts.

(** X5. For a port and a timeout within the digit limit of [str]: when the
    user, the password or a certificate path that is used holds a surrogate,
    method B raises the [UnicodeEncodeError] of [quote_plus], whatever host
    and database are. *)
Theorem url_params_surrogate_raises user password host port database
    ca_cert_path connect_timeout :
  within_digit_limit port = true ->
  within_digit_limit connect_timeout = true ->
  Utf8.encodable user = false \/ Utf8.encodable password = false
  \/ (truthy ca_cert_path = true
      /\ Utf8.encodable (path_of ca_cert_path) = false) ->
  create_engine_with_url_params user password host port database ca_cert_path
    connect_timeout = Raise Utf8.surrogates_not_allowed
  /\ exn_class Utf8.surrogates_not_allowed = UnicodeEncodeError.
Proof.
  intros _ _ Hbad. split; [|reflexivity].
  pose proof (create_engine_with_url_params_Return_iff user password host port
                database ca_cert_path connect_timeout) as Hret.
  destruct (create_engine_with_url_params user password host port database
              ca_cert_path connect_timeout) as [h|e'] eqn:E.
  - destruct (proj1 Hret) as (Hu & Hp & Hc); [now exists h|].
    destruct Hbad as [Hb|[Hb|[Ht Hb]]]; try congruence.
    specialize (Hc Ht). congruence.
  - now rewrite (create_engine_with_url_params_Raise _ _ _ _ _ _ _ _ E).
Qed.

(** A certificate path with a lone surrogate, behind a host that holds
    one too. *)
Lemma url_params_surrogate_raises_witness :
  (within_digit_limit 50000 = true /\ within_digit_limit 10 = true
   /\ (Utf8.encodable sample_user = false
       \/ Utf8.encodable sample_password = false
       \/ (truthy (Some [0xDC80]) = true
           /\ Utf8.encodable (path_of (Some [0xDC80])) = false)))
  /\ create_engine_with_url_params sample_user sample_password [0xD800] 50000
       sample_database (Some [0xDC80]) 10 = Raise Utf8.surrogates_not_allowed
  /\ exn_class Utf8.surrogates_not_allowed = UnicodeEncodeError.
Proof.
  assert (Utf8.encodable sample_user = false
          \/ Utf8.encodable sample_password = false
          \/ (truthy (Some [0xDC80]) = true
              /\ Utf8.encodable (path_of (Some [0xDC80])) = false)) as Hbad
    by (right; right; split; reflexivity).
  split; [split; [reflexivity | split; [reflexivity | exact Hbad]]|].
  apply (url_params_surrogate_raises sample_user sample_password [0xD800] 50000
           sample_database (Some [0xDC80]) 10); [reflexivity | reflexivity |].
  exact Hbad.
Defined.

(** X6. The credentials of the URL of method B decode to the user and the
    password that were given, whatever they hold and whatever host, port and
    database follow them: no [:] and no [@] of theirs is left to be taken
    for a delimiter. *)
Theorem url_params_credentials_round_trip user password host port database
    ca_cert_path connect_timeout h :
  wf_str user -> wf_str password ->
  create_engine_with_url_params user password host port database ca_cert_path
    connect_timeout = Return h ->
  exists quser qpassword,
    credentials (engine_url h) = (quser, qpassword)
    /\ contains (chr ":") quser = false /\ contains (chr "@") quser = false
    /\ contains (chr ":") qpassword = false /\ contains (chr "@") qpassword = false
    /\ unquote_plus quser = user
    /\ unquote_plus qpassword = password.
Proof.
  intros Wu Wp H.
  apply create_engine_with_url_params_inv in H
    as (quser & qpassword & qcert & Hu & Hp & _ & ->).
  exists quser, qpassword.
  assert (contains (chr ":") quser = false) as Hu1
    by now apply (quote_plus_absent _ user).
  assert (contains (chr "@") quser = false) as Hu2
    by now apply (quote_plus_absent _ user).
  assert (contains (chr ":") qpassword = false) as Hp1
    by now apply (quote_plus_absent _ password).
  assert (contains (chr "@") qpassword = false) as Hp2
    by now apply (quote_plus_absent _ password).
  split; [|repeat split; try assumption; now apply unquote_plus_quote_plus].
  cbn [engine_url create_engine]. unfold credentials.
  change (lit "ibm_db_sa://" ++ ?x)
    with (lit "ibm_db_sa" ++ chr ":" :: chr "/" :: chr "/" :: x).
  rewrite partition_app_sep by reflexivity. cbn [snd].
  change (lit "@" ++ ?x) with (chr "@" :: x).
  rewrite (app_assoc quser), (app_assoc (quser ++ lit ":")).
  rewrite partition_app_sep
    by (rewrite !contains_app, Hu2, Hp2; reflexivity).
  cbn [fst]. rewrite <- app_assoc. change (lit ":" ++ ?x) with (chr ":" :: x).
  now rewrite partition_app_sep by exact Hu1.
Qed.

(** The sample inputs: a user with a space and characters of up to four
    octets, a password with [@], [;], [&] and [%]. *)
Lemma url_params_credentials_round_trip_witness :
  (wf_str sample_user /\ wf_str sample_password
   /\ create_engine_with_url_params sample_user sample_password sample_host 50000
        sample_database (Some sample_cert) 10
      = Return (create_engine sample_url_B_cert 5 10 true))
  /\ exists quser qpassword,
       credentials sample_url_B_cert = (quser, qpassword)
       /\ contains (chr ":") quser = false /\ contains (chr "@") quser = false
       /\ contains (chr ":") qpassword = false
       /\ contains (chr "@") qpassword = false
       /\ unquote_plus quser = sample_user
       /\ unquote_plus qpassword = sample_password.
Proof.
  split; [repeat split; reflexivity|].
  apply (url_params_credentials_round_trip sample_user sample_password
           sample_host 50000 sample_database (Some sample_cert) 10
           (create_engine sample_url_B_cert 5 10 true)); reflexivity.
Defined.

(** X7. Round trip of the query of method B: when host and database hold no [?]
    and no [#], the query parameters of the URL, decoded, are the items of
    [params] in their order: security, connecttimeout and, when a path is
    used, SSLServerCertificate with the path as it was given. *)
Theorem url_params_query_round_trip user password host port database
    ca_cert_path connect_timeout h :
  wf_path ca_cert_path ->
  no_query_mark host = true -> no_query_mark database = true ->
  create_engine_with_url_params user password host port database ca_cert_path
    connect_timeout = Return h ->
  decoded_params (engine_url h) = params ca_cert_path connect_timeout
  /\ contains (chr "#") (engine_url h) = false.
Proof.
  intros Wc Hh Hd H.
  apply no_query_mark_spec in Hh as [Hh1 Hh2].
  apply no_query_mark_spec in Hd as [Hd1 Hd2].
  apply create_engine_with_url_params_inv in H
    as (quser & qpassword & qcert & Hu & Hp & Hc & ->).
  apply quoted_cert_truthy in Hc.
  cbn [engine_url create_engine].
  assert (forall c, is_token_char c = false ->
            (contains c quser = false /\ contains c qpassword = false)
            /\ contains c (str_int port) = false
            /\ contains c (str_int connect_timeout) = false
            /\ match qcert with
               | Some q => contains c q = false
               | None => True
               end) as Htok.
  { intros c Hc'.
    split; [split; [now apply (quote_plus_absent c user)
                   | now apply (quote_plus_absent c password)]|].
    split; [now apply str_int_absent|]. split; [now apply str_int_absent|].
    destruct qcert as [q|]; [|exact I].
    destruct Hc as [_ Hq].
    now apply (quote_plus_absent c (path_of ca_cert_path) q). }
  split.
  - unfold decoded_params, query_params.
    destruct (Htok (chr "?") eq_refl) as ((H0 & H1) & H2 & _ & _).
    replace (lit "ibm_db_sa://" ++ quser ++ lit ":" ++ qpassword ++ lit "@"
             ++ host ++ lit ":" ++ str_int port ++ lit "/" ++ database
             ++ lit "?" ++ query_string connect_timeout qcert)
      with ((((lit "ibm_db_sa://" ++ quser ++ lit ":" ++ qpassword ++ lit "@")
              ++ host) ++ lit ":" ++ str_int port ++ lit "/" ++ database)
            ++ chr "?" :: query_string connect_timeout qcert)
      by (repeat rewrite <- app_assoc; reflexivity).
    rewrite partition_app_sep
      by (rewrite !contains_app, H0, H1, H2, Hh1, Hd1; reflexivity).
    cbn [snd]. rewrite query_string_join.
    destruct (Htok (chr "&") eq_refl) as (_ & _ & H3 & H4).
    rewrite split_join.
    + rewrite params_shape. cbn [map app fst snd].
      change (partition (chr "=") (lit "security=SSL"))
        with (lit "security", Some (lit "SSL")).
      change (lit "connecttimeout=" ++ str_int connect_timeout)
        with (lit "connecttimeout" ++ chr "=" :: str_int connect_timeout).
      rewrite partition_app_sep by reflexivity. cbn [fst snd].
      change (unquote_plus (lit "SSL")) with (lit "SSL").
      rewrite unquote_plus_str_int. do 2 f_equal.
      destruct qcert as [q|].
      * destruct Hc as [Ht Hq].
        destruct ca_cert_path as [[|c path]|]; try discriminate Ht.
        cbn [map fst snd path_of] in *.
        change (lit "SSLServerCertificate=" ++ q)
          with (lit "SSLServerCertificate" ++ chr "=" :: q).
        rewrite partition_app_sep by reflexivity. cbn [fst snd].
        now rewrite (unquote_plus_quote_plus (c :: path) q Wc Hq).
      * destruct ca_cert_path as [[|c path]|]; try discriminate Hc; reflexivity.
    + destruct qcert; discriminate.
    + apply Forall_app. split.
      * repeat constructor. now rewrite contains_app, H3.
      * destruct qcert as [q|]; repeat constructor.
        now rewrite contains_app, H4.
  - destruct (Htok (chr "#") eq_refl) as ((H0 & H1) & H2 & H3 & H4).
    unfold query_string. rewrite !contains_app, H0, H1, H2, H3, Hh2, Hd2.
    destruct qcert as [q|]; [rewrite contains_app, H4|]; reflexivity.
Qed.

(** The sample inputs with the certificate path that holds a space. *)
Lemma url_params_query_round_trip_witness :
  (wf_path (Some sample_cert) /\ no_query_mark sample_host = true
   /\ no_query_mark sample_database = true
   /\ create_engine_with_url_params sample_user sample_password sample_host 50000
        sample_database (Some sample_cert) 10
      = Return (create_engine sample_url_B_cert 5 10 true))
  /\ decoded_params sample_url_B_cert = params (Some sample_cert) 10
  /\ contains (chr "#") sample_url_B_cert = false.
Proof.
  split; [repeat split; reflexivity|].
  apply (url_params_query_round_trip sample_user sample_password sample_host
           50000 sample_database (Some sample_cert) 10
           (create_engine sample_url_B_cert 5 10 true)); reflexivity.
Defined.

(** ** test_connection beyond the specification *)








(** ** The configuration and the main block *)

Module MainFacts.
Import Main IntFacts.

(** The engine of a configuration is made exactly when none of its texts
    holds a surrogate. *)
Lemma config_engine_encodable cfg :
  Utf8.encodable
    (dsn (DB2_USER cfg) (DB2_PASSWORD cfg) (DB2_HOST cfg) (DB2_PORT cfg)
       (DB2_DATABASE cfg) (Some (DB2_CA_CERT cfg)) (DB2_CONNECT_TIMEOUT cfg))
  = config_encodable cfg.
Proof.
  rewrite dsn_encodable. unfold config_encodable.
  destruct (Utf8.encodable (DB2_USER cfg)), (Utf8.encodable (DB2_PASSWORD cfg)),
    (Utf8.encodable (DB2_HOST cfg)), (Utf8.encodable (DB2_DATABASE cfg));
    cbn [andb]; try reflexivity.
  destruct (DB2_CA_CERT cfg) as [|c path]; reflexivity.
Qed.


Lemma config_engine_Raise cfg :
  config_encodable cfg = false ->
  config_engine cfg = Raise Utf8.surrogates_not_allowed.
Proof.
  intros H. destruct (config_engine cfg) as [h|e] eqn:E.
  - assert (exists h, config_engine cfg = Return h) as Hex by now exists h.
    apply create_engine_with_dsn_Return_iff in Hex.
    rewrite config_engine_encodable in Hex. congruence.
  - now rewrite (create_engine_with_dsn_Raise _ _ _ _ _ _ _ _ E).
Qed.


(** The fields of a configuration that was loaded. *)
Lemma load_config_inv environ cfg :
  load_config environ = Return cfg ->
  exists port connect_timeout,
    getenv_int environ (lit "DB2_PORT") 50000 = Return port
    /\ getenv_int environ (lit "DB2_CONNECT_TIMEOUT") 10 = Return connect_timeout
    /\ cfg = mk_config
               (getenv environ (lit "DB2_USER") (lit "db2user"))
               (getenv environ (lit "DB2_PASSWORD") (lit "db2pwd"))
               (getenv environ (lit "DB2_HOST") (lit "db2-prod.example.com"))
               port
               (getenv environ (lit "DB2_DATABASE") (lit "MYDB"))
               (getenv environ (lit "DB2_CA_CERT") (lit "/path/to/ca_certificate.pem"))
               connect_timeout.
Proof.
  unfold load_config.
  destruct (getenv_int environ (lit "DB2_PORT") 50000) as [port|e];
    cbn [bind]; [|discriminate].
  destruct (getenv_int environ (lit "DB2_CONNECT_TIMEOUT") 10) as [timeout|e];
    cbn [bind]; [|discriminate].
  intros H. apply Return_inj in H. exists port, timeout. now subst cfg.
Qed.

(** [int] of a variable raises nothing but its [ValueError], and nothing
    when the variable is unset. *)
Lemma getenv_int_Raise environ key default e :
  getenv_int environ key default = Raise e ->
  e = Int.invalid_literal
  /\ exists v, environ_get environ key = Some v
               /\ Int.int_str v = Raise Int.invalid_literal.
Proof.
  unfold getenv_int. destruct (environ_get environ key) as [v|]; [|discriminate].
  intros H. pose proof (int_str_Raise v e H) as ->. split; [reflexivity|].
  now exists v.
Qed.

End MainFacts.

Import Main IntFacts MainFacts.



(** X12. When a text of the configuration holds a surrogate, the main block
    raises the [UnicodeEncodeError] of [quote_plus] before the engine is
    made: whatever the driver, no connection is tried and nothing is
    printed. *)
Theorem main_surrogate_raises driver cfg w :
  config_encodable cfg = false ->
  main driver cfg w = (Raise Utf8.surrogates_not_allowed, w).
Proof.
  intros H. unfold main, io_bind, call. fold (config_engine cfg).
  now rewrite (config_engine_Raise cfg H).
Qed.

(** A password with a lone surrogate. *)
Lemma main_surrogate_raises_witness :
  config_encodable surrogate_config = false
  /\ main healthy_driver surrogate_config fresh
     = (Raise Utf8.surrogates_not_allowed, fresh).
Proof.
  split; [reflexivity|].
  apply (main_surrogate_raises healthy_driver surrogate_config fresh).
  reflexivity.
Defined.

(** X13. An environment that sets none of the seven variables gives the default
    configuration, whatever else it sets. *)
Theorem load_config_defaults environ :
  Forall (fun key => environ_get environ key = None) VARIABLES ->
  load_config environ = Return default_config.
Proof.
  intros H. unfold VARIABLES in H.
  repeat match goal with
         | H : Forall _ (_ :: _) |- _ =>
             let Hk := fresh "Hk" in apply Forall_cons_iff in H as [Hk H]
         end.
  unfold load_config, getenv_int, getenv.
  repeat match goal with
         | Hk : environ_get environ _ = None |- _ => rewrite Hk; clear Hk
         end.
  reflexivity.
Qed.

(** An environment with other variables only. *)
Lemma load_config_defaults_witness :
  Forall (fun key => environ_get [(lit "HOME", lit "/root")] key = None) VARIABLES
  /\ load_config [(lit "HOME", lit "/root")] = Return default_config.
Proof.
  assert (Forall (fun key => environ_get [(lit "HOME", lit "/root")] key = None)
                 VARIABLES) as H by (repeat constructor).
  split; [exact H|].
  exact (load_config_defaults [(lit "HOME", lit "/root")] H).
Defined.

(** X14. A number in the environment is read as Python's [int] reads it and
    written into the attribute as [str] prints it: around the decimal text
    of a port, white space is dropped, and the PORT attribute holds that
    decimal text again. *)
Theorem load_config_reads_port environ port connect_timeout ws1 ws2 :
  forallb Int.is_space ws1 = true -> forallb Int.is_space ws2 = true ->
  environ_get environ (lit "DB2_PORT") = Some (ws1 ++ str_int port ++ ws2) ->
  getenv_int environ (lit "DB2_CONNECT_TIMEOUT") 10 = Return connect_timeout ->
  exists cfg,
    load_config environ = Return cfg
    /\ DB2_PORT cfg = port
    /\ DB2_CONNECT_TIMEOUT cfg = connect_timeout
    /\ nth_error (config_attrs cfg) 2 = Some (lit "PORT=" ++ str_int port).
Proof.
  intros H1 H2 Hport Htime. unfold load_config.
  unfold getenv_int at 1. rewrite Hport, (int_str_str_int port ws1 ws2 H1 H2).
  cbn [bind]. rewrite Htime. cbn [bind]. eexists. split; [reflexivity|].
  cbn [DB2_PORT DB2_CONNECT_TIMEOUT]. split; [reflexivity|].
  split; [reflexivity|]. unfold config_attrs. rewrite dsn_attrs_shape.
  reflexivity.
Qed.

(** The sample environment: a port with a space before it and a line feed
    after it. *)
Lemma load_config_reads_port_witness :
  (forallb Int.is_space (lit " ") = true /\ forallb Int.is_space [LF] = true
   /\ environ_get sample_environ (lit "DB2_PORT")
      = Some (lit " " ++ str_int 50001 ++ [LF])
   /\ getenv_int sample_environ (lit "DB2_CONNECT_TIMEOUT") 10 = Return 10%Z)
  /\ exists cfg,
       load_config sample_environ = Return cfg
       /\ DB2_PORT cfg = 50001%Z
       /\ DB2_CONNECT_TIMEOUT cfg = 10%Z
       /\ nth_error (config_attrs cfg) 2 = Some (lit "PORT=" ++ str_int 50001).
Proof.
  split; [repeat split; reflexivity|].
  apply (load_config_reads_port sample_environ 50001 10 (lit " ") [LF]);
    reflexivity.
Defined.

(** X15. Loading the configuration fails only in [int], with its [ValueError],
    and only for DB2_PORT or DB2_CONNECT_TIMEOUT set to a text that [int]
    refuses: the five texts are taken as they are, and a number that is
    unset never fails. *)
Theorem load_config_raises_iff environ e :
  load_config environ = Raise e
  <-> e = Int.invalid_literal
      /\ exn_class e = ValueError
      /\ exists key v,
           In key NUMBERS /\ environ_get environ key = Some v
           /\ Int.int_str v = Raise Int.invalid_literal.
Proof.
  unfold load_config. split.
  - destruct (getenv_int environ (lit "DB2_PORT") 50000) as [port|e1] eqn:E1;
      cbn [bind].
    + destruct (getenv_int environ (lit "DB2_CONNECT_TIMEOUT") 10)
        as [timeout|e2] eqn:E2; cbn [bind]; [discriminate|].
      intros [= <-]. apply getenv_int_Raise in E2 as (-> & v & Hv & Hi).
      split; [reflexivity|]. split; [reflexivity|].
      exists (lit "DB2_CONNECT_TIMEOUT"), v. split; [right; now left | now split].
    + intros [= <-]. apply getenv_int_Raise in E1 as (-> & v & Hv & Hi).
      split; [reflexivity|]. split; [reflexivity|].
      exists (lit "DB2_PORT"), v. split; [now left | now split].
  - intros (-> & _ & key & v & Hkey & Hv & Hi).
    destruct Hkey as [<-|[<-|[]]].
    + unfold getenv_int at 1. now rewrite Hv, Hi.
    + destruct (getenv_int environ (lit "DB2_PORT") 50000) as [port|e1] eqn:E1;
        cbn [bind].
      * unfold getenv_int. now rewrite Hv, Hi.
      * now apply getenv_int_Raise in E1 as (-> & _).
Qed.

(** X16. A number that is set but holds no digit (the empty text, blanks) is not
    replaced by its default: the program stops with the [ValueError] of
    [int] while the module is loaded, before anything is printed and
    whatever the driver. *)
Theorem run_rejects_blank_number driver environ key v w :
  In key NUMBERS ->
  environ_get environ key = Some v ->
  forallb (fun c => negb (Int.is_decimal c)) v = true ->
  run driver environ w = (Raise Int.invalid_literal, w).
Proof.
  intros Hkey Hv Hblank. apply int_str_no_digit in Hblank.
  unfold run, io_bind, call.
  assert (load_config environ = Raise Int.invalid_literal) as ->; [|reflexivity].
  unfold load_config. destruct Hkey as [<-|[<-|[]]].
  - unfold getenv_int at 1. now rewrite Hv, Hblank.
  - destruct (getenv_int environ (lit "DB2_PORT") 50000) as [port|e1] eqn:E1;
      cbn [bind].
    + unfold getenv_int. now rewrite Hv, Hblank.
    + now apply getenv_int_Raise in E1 as (-> & _).
Qed.

(** A timeout of one space. *)
Lemma run_rejects_blank_number_witness :
  (In (lit "DB2_CONNECT_TIMEOUT") NUMBERS
   /\ environ_get blank_timeout_environ (lit "DB2_CONNECT_TIMEOUT") = Some (lit " ")
   /\ forallb (fun c => negb (Int.is_decimal c)) (lit " ") = true)
  /\ run healthy_driver blank_timeout_environ fresh
     = (Raise Int.invalid_literal, fresh).
Proof.
  assert (In (lit "DB2_CONNECT_TIMEOUT") NUMBERS) as Hin by (right; now left).
  split; [split; [exact Hin | split; reflexivity]|].
  apply (run_rejects_blank_number healthy_driver blank_timeout_environ
           (lit "DB2_CONNECT_TIMEOUT") (lit " ") fresh);
    [exact Hin | reflexivity | reflexivity].
Defined.

(** X17. The main block always hands a certificate path to method A, the one of
    DB2_CA_CERT or the placeholder: the attribute list of a loaded
    configuration lacks SSLServerCertificate exactly when DB2_CA_CERT is set
    to the empty text, and ends with the placeholder path when the variable
    is unset. *)
Theorem config_cert_attribute environ cfg :
  load_config environ = Return cfg ->
  (has_attr SSLServerCertificate (config_attrs cfg) = false
   <-> environ_get environ (lit "DB2_CA_CERT") = Some [])
  /\ (environ_get environ (lit "DB2_CA_CERT") = None ->
      last (config_attrs cfg) []
      = lit "SSLServerCertificate=/path/to/ca_certificate.pem").
Proof.
  intros H. apply load_config_inv in H as (port & timeout & _ & _ & ->).
  unfold config_attrs, getenv.
  cbn [DB2_USER DB2_PASSWORD DB2_HOST DB2_PORT DB2_DATABASE DB2_CA_CERT
       DB2_CONNECT_TIMEOUT].
  destruct (environ_get environ (lit "DB2_CA_CERT")) as [[|c path]|].
  - split; [split; reflexivity | discriminate].
  - split; [split; discriminate | discriminate].
  - split; [split; discriminate | reflexivity].
Qed.

(** The sample environment sets DB2_CA_CERT to the empty text. *)
Lemma config_cert_attribute_witness :
  load_config sample_environ = Return sample_config
  /\ (has_attr SSLServerCertificate (config_attrs sample_config) = false
      <-> environ_get sample_environ (lit "DB2_CA_CERT") = Some [])
  /\ (environ_get sample_environ (lit "DB2_CA_CERT") = None ->
      last (config_attrs sample_config) []
      = lit "SSLServerCertificate=/path/to/ca_certificate.pem").
Proof.
  split; [reflexivity|].
  apply (config_cert_attribute sample_environ sample_config). reflexivity.
Defined.
